(** * perplexityphrase: a shallow embedding of the scoring pipeline

    The development follows the three Python sources:
    - [perplexity_phrase_sorter.py]   (module [PhraseSorter]),
    - [perplexity_batch_processor.py] (module [BatchProcessor]),
    - [extract_results.py]            (module [Extractor]).

    Python floats are idealised as extended reals: a finite float is a real
    number, and the two infinities and NaN are separate values.  Rounding and
    overflow are therefore not part of the model. *)

From Stdlib Require Import Reals Lra ZArith Lia List String Ascii Bool.
From Stdlib Require Import Permutation Sorted.
Import ListNotations.

(* ------------------------------------------------------------------ *)
(** ** Python values: floats and exceptions *)

Module Py.

Inductive pyfloat : Type :=
| Fin (r : R)
| PInf
| NInf
| NaN.

(** Result of a computation that may raise an [Exception]. *)
Inductive exc (A : Type) : Type :=
| Ok (a : A)
| Raise (e : string).
Arguments Ok {A} a.
Arguments Raise {A} e.

Definition bind {A B : Type} (c : exc A) (k : A -> exc B) : exc B :=
  match c with
  | Ok a => k a
  | Raise e => Raise e
  end.

(** [x < y] on floats; every comparison with NaN is false. *)
Definition lt (x y : pyfloat) : bool :=
  match x, y with
  | NaN, _ | _, NaN => false
  | Fin a, Fin b => if Rlt_dec a b then true else false
  | NInf, NInf => false
  | NInf, _ => true
  | _, NInf => false
  | PInf, _ => false
  | Fin _, PInf => true
  end.

Definition gt (x y : pyfloat) : bool := lt y x.

Definition isinf (x : pyfloat) : bool :=
  match x with PInf | NInf => true | _ => false end.

Definition isnan (x : pyfloat) : bool :=
  match x with NaN => true | _ => false end.

Definition neg (x : pyfloat) : pyfloat :=
  match x with
  | Fin r => Fin (- r)
  | PInf => NInf
  | NInf => PInf
  | NaN => NaN
  end.

Definition add (x y : pyfloat) : pyfloat :=
  match x, y with
  | NaN, _ | _, NaN => NaN
  | Fin a, Fin b => Fin (a + b)
  | PInf, NInf | NInf, PInf => NaN
  | PInf, _ | _, PInf => PInf
  | NInf, _ | _, NInf => NInf
  end.

(** Sign of a real, used by products and quotients with an infinity. *)
Definition sign (r : R) : comparison :=
  if Rlt_dec 0 r then Gt else if Rlt_dec r 0 then Lt else Eq.

Definition mul (x y : pyfloat) : pyfloat :=
  match x, y with
  | NaN, _ | _, NaN => NaN
  | Fin a, Fin b => Fin (a * b)
  | PInf, PInf | NInf, NInf => PInf
  | PInf, NInf | NInf, PInf => NInf
  | PInf, Fin a | Fin a, PInf =>
      match sign a with Gt => PInf | Lt => NInf | Eq => NaN end
  | NInf, Fin a | Fin a, NInf =>
      match sign a with Gt => NInf | Lt => PInf | Eq => NaN end
  end.

(** [x / n] for a float [x] and an int [n]. *)
Definition div_int (x : pyfloat) (n : Z) : exc pyfloat :=
  if (n =? 0)%Z then Raise "ZeroDivisionError"
  else Ok match x with
          | Fin r => Fin (r / IZR n)
          | PInf => if (0 <? n)%Z then PInf else NInf
          | NInf => if (0 <? n)%Z then NInf else PInf
          | NaN => NaN
          end.

(** [math.log]: a domain error outside the positive half line. *)
Definition math_log (x : pyfloat) : exc pyfloat :=
  match x with
  | Fin r => if Rlt_dec 0 r then Ok (Fin (ln r)) else Raise "ValueError"
  | PInf => Ok PInf
  | NInf => Raise "ValueError"
  | NaN => Ok NaN
  end.

(** [math.exp].  Python raises OverflowError when the result leaves the
    float range; over the reals there is no such bound. *)
Definition math_exp (x : pyfloat) : exc pyfloat :=
  match x with
  | Fin r => Ok (Fin (exp r))
  | PInf => Ok PInf
  | NInf => Ok (Fin 0)
  | NaN => Ok NaN
  end.

(** A [for] loop whose body may raise: the first exception ends the loop. *)
Fixpoint for_each {S I : Type} (body : S -> I -> exc S) (st : S)
  (items : list I) : exc S :=
  match items with
  | [] => Ok st
  | i :: rest =>
      match body st i with
      | Ok st' => for_each body st' rest
      | Raise e => Raise e
      end
  end.

(** *** Text

    A string is a sequence of characters with code points below 256. *)

(** [str.isspace] of one character, which is also what [\s] matches. *)
Definition isspace (c : ascii) : bool :=
  let n := nat_of_ascii c in
  ((9 <=? n)%nat && (n <=? 13)%nat) || ((28 <=? n)%nat && (n <=? 32)%nat)
  || (n =? 133)%nat || (n =? 160)%nat.

Fixpoint take_while (p : ascii -> bool) (s : list ascii) : list ascii :=
  match s with
  | c :: s' => if p c then c :: take_while p s' else []
  | [] => []
  end.

Fixpoint drop_while (p : ascii -> bool) (s : list ascii) : list ascii :=
  match s with
  | c :: s' => if p c then drop_while p s' else s
  | [] => []
  end.

(** [str.strip()]: whitespace is removed at both ends. *)
Definition strip_chars (s : list ascii) : list ascii :=
  rev (drop_while isspace (rev (drop_while isspace s))).

Definition strip (s : string) : string :=
  string_of_list_ascii (strip_chars (list_ascii_of_string s)).

(** The class [[.!?]] of the pattern [sentence_endings]. *)
Definition is_ending (c : ascii) : bool :=
  Ascii.eqb c "." || Ascii.eqb c "!" || Ascii.eqb c "?".

(** A match of [[.!?]+(?:\s+|$)] that begins at the head of [s]: the
    longest run of ending characters, then the longest run of whitespace
    or else the end of the text.  The result is what follows the match. *)
Definition match_endings (s : list ascii) : option (list ascii) :=
  match take_while is_ending s with
  | [] => None
  | _ :: _ =>
      match drop_while is_ending s with
      | [] => Some []
      | c :: rest => if isspace c then Some (drop_while isspace rest) else None
      end
  end.

(** The leftmost match in [s]: the text before it and the text after it. *)
Fixpoint search_endings (s : list ascii) : option (list ascii * list ascii) :=
  match s with
  | [] => None
  | c :: s' =>
      match match_endings s with
      | Some after => Some ([], after)
      | None =>
          match search_endings s' with
          | Some (before, after) => Some (c :: before, after)
          | None => None
          end
      end
  end.

(** [re.split(sentence_endings, text)]: the pieces between the successive
    matches.  A match takes at least one character, so the length of the
    text bounds the number of rounds. *)
Fixpoint split_rounds (rounds : nat) (s : list ascii) : list (list ascii) :=
  match rounds with
  | O => [s]
  | S rounds' =>
      match search_endings s with
      | Some (before, after) => before :: split_rounds rounds' after
      | None => [s]
      end
  end.

Definition re_split_endings (text : string) : list string :=
  map string_of_list_ascii
    (split_rounds (List.length (list_ascii_of_string text))
       (list_ascii_of_string text)).

(** *** Sorting

    [sorted] is stable; written as an insertion sort, [before x y] telling
    that [x] may stand before [y]. *)
Fixpoint insort {A : Type} (before : A -> A -> bool) (x : A) (l : list A)
  : list A :=
  match l with
  | [] => [x]
  | y :: l' => if before x y then x :: l else y :: insort before x l'
  end.

Definition sorted {A : Type} (before : A -> A -> bool) (l : list A) : list A :=
  fold_right (insort before) [] l.

End Py.

Import Py.

Notation "x <- c ;; k" := (Py.bind c (fun x => k))
  (at level 61, c at next level, right associativity).

(* ------------------------------------------------------------------ *)
(** ** perplexity_phrase_sorter.py

    The language model is an external capability.  [encode] stands for
    [self.tokenizer.encode]; [target_prob context target] stands for the
    forward pass on [context], the softmax of the last logits and the
    read-out [float(probs[target])].  Either may raise. *)

Module PhraseSorter.
Section PerplexityCalculator.

Variable encode : string -> exc (list Z).
Variable target_prob : list Z -> Z -> exc pyfloat.

(** One round of the loop over [range(len(tokens) - 1)]; the state is
    [(total_nll, num_predictions)]. *)
Definition predict_step (tokens : list Z) (st : pyfloat * Z) (i : nat)
  : exc (pyfloat * Z) :=
  let '(total_nll, num_predictions) := st in
  let context_tokens := firstn (i + 1) tokens in
  match nth_error tokens (i + 1) with
  | None => Raise "IndexError"
  | Some target_token =>
      p <- target_prob context_tokens target_token ;;
      if gt p (Fin 0) && negb (isinf p) && negb (isnan p) then
        l <- math_log p ;;
        let nll := neg l in
        Ok (add total_nll nll, (num_predictions + 1)%Z)
      else
        Ok (add total_nll (Fin 20), (num_predictions + 1)%Z)
  end.

(** The body of the [try] block. *)
Definition try_block (sentence : string) : exc pyfloat :=
  tokens <- encode sentence ;;
  if (Z.of_nat (List.length tokens) <? 2)%Z then Ok PInf
  else
    st <- for_each (predict_step tokens) (Fin 0, 0%Z)
            (seq 0 (List.length tokens - 1)) ;;
    let '(total_nll, num_predictions) := st in
    if (num_predictions =? 0)%Z then Ok PInf
    else
      avg_nll <- div_int total_nll num_predictions ;;
      math_exp avg_nll.

(** [except Exception: return float('inf')]. *)
Definition calculate_perplexity_simple (sentence : string) : pyfloat :=
  match try_block sentence with
  | Ok perplexity => perplexity
  | Raise _ => PInf
  end.

End PerplexityCalculator.
(** [split_into_sentences]: every piece that is not blank, stripped. *)
Definition split_into_sentences (text : string) : list string :=
  let text := strip text in
  let sentences := re_split_endings text in
  map strip (filter (fun s => negb (String.eqb (strip s) "")) sentences).

Section ProcessText.
Variable encode : string -> exc (list Z).
Variable target_prob : list Z -> Z -> exc pyfloat.

(** [process_text]: the sentences of the text, each with its score. *)
Definition process_text (text : string) : list (string * pyfloat) :=
  map (fun sentence =>
         (sentence, calculate_perplexity_simple encode target_prob sentence))
    (split_into_sentences text).

End ProcessText.

(** [sorted(..., key=lambda x: x[1], reverse=True)]: descending by score,
    entries of equal score in their given order.  With a NaN among the
    scores Python's result depends on the comparisons it happens to make;
    the scorer returns none. *)
Definition sort_by_perplexity (sentence_perplexities : list (string * pyfloat))
  : list (string * pyfloat) :=
  sorted (fun x y => negb (lt (snd x) (snd y))) sentence_perplexities.

End PhraseSorter.

(* ------------------------------------------------------------------ *)
(** ** The fragment of SQLite the queries use

    The statements in the sources are SQL text; what they compute is fixed
    by SQLite's rules for storage classes, type affinity, comparison,
    sorting and the built-in functions (the pages "Datatypes In SQLite",
    "Built-In Scalar SQL Functions" and "Built-In Mathematical SQL
    Functions" of its documentation), which this module writes out. *)

Module Sqlite.

Inductive sqlvalue : Type :=
| SqlNull
| SqlInteger (z : Z)
| SqlReal (x : pyfloat)
| SqlText (s : string).

(** Binding a Python float to a statement: a NaN is stored as NULL. *)
Definition bind_float (x : pyfloat) : option pyfloat :=
  match x with
  | NaN => None
  | _ => Some x
  end.

(** A nullable REAL column read as a value. *)
Definition column (v : option pyfloat) : sqlvalue :=
  match v with
  | None => SqlNull
  | Some x => SqlReal x
  end.

(** *** Text that is a well-formed integer or real literal *)

Definition is_digit (c : ascii) : bool :=
  let n := nat_of_ascii c in (48 <=? n)%nat && (n <=? 57)%nat.

Definition digit_value (c : ascii) : Z := (Z.of_nat (nat_of_ascii c) - 48)%Z.

Definition is_space (c : ascii) : bool :=
  let n := nat_of_ascii c in (n =? 32)%nat || ((9 <=? n)%nat && (n <=? 13)%nat).

Fixpoint skip_spaces (s : list ascii) : list ascii :=
  match s with
  | c :: s' => if is_space c then skip_spaces s' else s
  | [] => []
  end.

(** Reads a run of digits: the number read so far, how many digits were
    read, and what is left. *)
Fixpoint read_digits (s : list ascii) (acc : Z) (count : nat)
  : Z * nat * list ascii :=
  match s with
  | c :: s' =>
      if is_digit c then read_digits s' (acc * 10 + digit_value c)%Z (S count)
      else (acc, count, s)
  | [] => (acc, count, [])
  end.

Definition read_sign (s : list ascii) : bool * list ascii :=
  match s with
  | "-"%char :: s' => (true, s')
  | "+"%char :: s' => (false, s')
  | _ => (false, s)
  end.

Definition signed (negative : bool) (z : Z) : Z :=
  if negative then (- z)%Z else z.

Definition numeric_literal (s : string) : option sqlvalue :=
  let (negative, s1) := read_sign (skip_spaces (list_ascii_of_string s)) in
  let '(int_part, n_int, s2) := read_digits s1 0%Z 0%nat in
  let '(mantissa, n_frac, s3, is_real) :=
    match s2 with
    | "."%char :: s2' =>
        let '(m, k, rest) := read_digits s2' int_part 0%nat in (m, k, rest, true)
    | _ => (int_part, 0%nat, s2, false)
    end in
  if (n_int + n_frac =? 0)%nat then None
  else
    let m := signed negative mantissa in
    match s3 with
    | c :: s4 =>
        if Ascii.eqb c "e" || Ascii.eqb c "E" then
          let (negative_exp, s5) := read_sign s4 in
          let '(e, n_exp, s6) := read_digits s5 0%Z 0%nat in
          match n_exp, skip_spaces s6 with
          | S _, [] =>
              Some (SqlReal (Fin (IZR m *
                 powerRZ 10 (signed negative_exp e - Z.of_nat n_frac))))
          | _, _ => None
          end
        else
          match skip_spaces s3 with
          | [] => if is_real
                  then Some (SqlReal (Fin (IZR m * powerRZ 10 (- Z.of_nat n_frac))))
                  else Some (SqlInteger m)
          | _ => None
          end
    | [] => if is_real
            then Some (SqlReal (Fin (IZR m * powerRZ 10 (- Z.of_nat n_frac))))
            else Some (SqlInteger m)
    end.

(** NUMERIC affinity: text that reads as a number becomes that number, any
    other text stays text. *)
Definition numeric_affinity (v : sqlvalue) : sqlvalue :=
  match v with
  | SqlText s =>
      match numeric_literal s with
      | Some n => n
      | None => v
      end
  | _ => v
  end.

(** *** Comparison *)

Definition real_compare (x y : pyfloat) : comparison :=
  if Py.lt x y then Lt else if Py.lt y x then Gt else Eq.

(** NULL compares to nothing; INTEGER and REAL values compare numerically
    and are less than any TEXT value; TEXT compares bytewise. *)
Definition sql_compare (a b : sqlvalue) : option comparison :=
  match a, b with
  | SqlNull, _ | _, SqlNull => None
  | SqlText s, SqlText t => Some (String.compare s t)
  | SqlText _, _ => Some Gt
  | _, SqlText _ => Some Lt
  | SqlInteger x, SqlInteger y => Some (Z.compare x y)
  | SqlInteger x, SqlReal y => Some (real_compare (Fin (IZR x)) y)
  | SqlReal x, SqlInteger y => Some (real_compare x (Fin (IZR y)))
  | SqlReal x, SqlReal y => Some (real_compare x y)
  end.

(** A column of REAL affinity compared with another operand: NUMERIC
    affinity is applied to the other operand first. *)
Definition compare_real_column (col : option pyfloat) (other : sqlvalue)
  : option comparison :=
  sql_compare (column col) (numeric_affinity other).

Definition is_eq (c : comparison) : bool :=
  match c with Eq => true | _ => false end.
Definition is_ge (c : comparison) : bool :=
  match c with Lt => false | _ => true end.
Definition is_le (c : comparison) : bool :=
  match c with Gt => false | _ => true end.

(** Three-valued results: [None] is SQL's NULL. *)
Definition sql_eq (col : option pyfloat) (other : sqlvalue) : option bool :=
  option_map is_eq (compare_real_column col other).
Definition sql_ne (col : option pyfloat) (other : sqlvalue) : option bool :=
  option_map (fun c => negb (is_eq c)) (compare_real_column col other).
Definition sql_ge (col : option pyfloat) (other : sqlvalue) : option bool :=
  option_map is_ge (compare_real_column col other).
Definition sql_le (col : option pyfloat) (other : sqlvalue) : option bool :=
  option_map is_le (compare_real_column col other).

Definition is_not_null (col : option pyfloat) : option bool :=
  match col with None => Some false | Some _ => Some true end.
Definition is_null (col : option pyfloat) : option bool :=
  match col with None => Some true | Some _ => Some false end.

Definition sql_and (a b : option bool) : option bool :=
  match a, b with
  | Some false, _ | _, Some false => Some false
  | Some true, Some true => Some true
  | _, _ => None
  end.

(** A row passes a WHERE clause when the clause is true (not false, not NULL). *)
Definition where_ (c : option bool) : bool :=
  match c with Some true => true | _ => false end.

(** *** ORDER BY and LIMIT *)

(** Sort order of a nullable REAL column: NULL first, then the numbers. *)
Definition order_leb (a b : option pyfloat) : bool :=
  match a, b with
  | None, _ => true
  | Some _, None => false
  | Some x, Some y => negb (Py.lt y x)
  end.

Fixpoint insert_sorted {A : Type} (leb : A -> A -> bool) (x : A) (l : list A)
  : list A :=
  match l with
  | [] => [x]
  | y :: l' => if leb x y then x :: l else y :: insert_sorted leb x l'
  end.

(** ORDER BY, as a stable insertion sort.  SQL leaves the order of rows with
    equal keys open; the theorems only use that the result is sorted and is
    a permutation of the rows. *)
Definition order_by {A : Type} (leb : A -> A -> bool) (l : list A) : list A :=
  fold_right (insert_sorted leb) [] l.

(** The order a boolean comparison stands for. *)
Definition le_of {A : Type} (leb : A -> A -> bool) (a b : A) : Prop :=
  leb a b = true.

(** LIMIT n: a negative n means no limit. *)
Definition limit {A : Type} (n : Z) (l : list A) : list A :=
  if (n <? 0)%Z then l else firstn (Z.to_nat n) l.

(** *** Aggregates over the non-NULL values of a column *)

Definition non_null (vals : list (option pyfloat)) : list pyfloat :=
  flat_map (fun v => match v with Some x => [x] | None => [] end) vals.

Definition sql_avg (vals : list (option pyfloat)) : option pyfloat :=
  match non_null vals with
  | [] => None
  | xs =>
      match div_int (fold_left add xs (Fin 0)) (Z.of_nat (List.length xs)) with
      | Ok a => bind_float a
      | Raise _ => None
      end
  end.

Definition sql_min (vals : list (option pyfloat)) : option pyfloat :=
  match non_null vals with
  | [] => None
  | x :: xs => Some (fold_left (fun m y => if Py.lt y m then y else m) xs x)
  end.

Definition sql_max (vals : list (option pyfloat)) : option pyfloat :=
  match non_null vals with
  | [] => None
  | x :: xs => Some (fold_left (fun m y => if Py.lt m y then y else m) xs x)
  end.

(** *** Scalar functions *)

(** LENGTH(X): the number of characters before the first NUL. *)
Fixpoint LENGTH (s : string) : Z :=
  match s with
  | EmptyString => 0%Z
  | String c s' => if Ascii.eqb c zero then 0%Z else (1 + LENGTH s')%Z
  end.

(** LOG(X) is the base-10 logarithm, NULL outside the positive numbers. *)
Definition LOG (n : Z) : option pyfloat :=
  if (0 <? n)%Z then Some (Fin (ln (IZR n) / ln 10)) else None.

(** Product of two nullable REALs; a NaN result is NULL. *)
Definition sql_mul (a b : option pyfloat) : option pyfloat :=
  match a, b with
  | Some x, Some y => bind_float (mul x y)
  | _, _ => None
  end.

Definition lower_char (c : ascii) : ascii :=
  let n := nat_of_ascii c in
  if (65 <=? n)%nat && (n <=? 90)%nat then ascii_of_nat (n + 32) else c.

(** LOWER(X) folds the ASCII letters only. *)
Fixpoint LOWER (s : string) : string :=
  match s with
  | EmptyString => EmptyString
  | String c s' => String (lower_char c) (LOWER s')
  end.

(** [text LIKE pattern]: [%] matches any run of characters, [_] any one
    character, and any other character matches itself without regard to
    the case of ASCII letters. *)
Fixpoint like_list (pattern text : list ascii) : bool :=
  match pattern with
  | [] => match text with [] => true | _ => false end
  | p :: pattern' =>
      if Ascii.eqb p "%" then
        (fix any_run (t : list ascii) : bool :=
           like_list pattern' t ||
           match t with
           | [] => false
           | _ :: t' => any_run t'
           end) text
      else
        match text with
        | [] => false
        | c :: text' =>
            (Ascii.eqb p "_" || Ascii.eqb (lower_char p) (lower_char c))
            && like_list pattern' text'
        end
  end.

Definition LIKE (text pattern : string) : bool :=
  like_list (list_ascii_of_string pattern) (list_ascii_of_string text).

(** POWER(X, Y) for an integer X that is not negative, as LENGTH gives it:
    the C function [pow].  A NULL argument gives NULL. *)
Definition POWER (x : Z) (y : option pyfloat) : option pyfloat :=
  match y with
  | None => None
  | Some NaN => None
  | Some (Fin w) =>
      if (x =? 0)%Z then
        match sign w with
        | Gt => Some (Fin 0)
        | Eq => Some (Fin 1)
        | Lt => Some PInf
        end
      else Some (Fin (Rpower (IZR x) w))
  | Some PInf =>
      if (x =? 0)%Z then Some (Fin 0)
      else if (x =? 1)%Z then Some (Fin 1) else Some PInf
  | Some NInf =>
      if (x =? 0)%Z then Some PInf
      else if (x =? 1)%Z then Some (Fin 1) else Some (Fin 0)
  end.

End Sqlite.

(* ------------------------------------------------------------------ *)
(** ** perplexity_batch_processor.py *)

Module BatchProcessor.
Import Sqlite.

(** A row of the table [sentences]. *)
Record sentence_row : Type := mk_row {
  id : Z;
  text : string;
  perplexity : option pyfloat;
  created_at : Z
}.

(** The database file: the table and the AUTOINCREMENT counter, the largest
    id ever handed out. *)
Record database : Type := mk_database {
  sentences : list sentence_row;
  sequence : Z
}.

Definition empty_database : database := mk_database [] 0.

(** [CREATE TABLE IF NOT EXISTS]: a fresh file gets the empty table, an
    existing one is left as it is. *)
Definition init_database (file : option database) : database :=
  match file with
  | Some db => db
  | None => empty_database
  end.

(** The constraints declared by the schema. *)
Definition primary_key (db : database) : Prop := NoDup (map id (sentences db)).
Definition unique_text (db : database) : Prop := NoDup (map text (sentences db)).

(** What [conn.execute] gives back: the new state with the number of rows
    changed, or an [sqlite3.Error]. *)
Inductive outcome : Type :=
| Done (db : database) (rowcount : Z)
| SqliteError (msg : string).

Inductive conflict_clause : Type := OrAbort | OrIgnore.

Definition max_rowid (rows : list sentence_row) : Z :=
  fold_right (fun r m => Z.max (id r) m) 0%Z rows.

(** [INSERT ... INTO sentences (text, perplexity) VALUES (?, NULL)]. *)
Definition insert_sentence (clause : conflict_clause) (now : Z) (t : string)
  (db : database) : outcome :=
  if existsb (fun r => String.eqb (text r) t) (sentences db) then
    match clause with
    | OrIgnore => Done db 0
    | OrAbort => SqliteError "UNIQUE constraint failed: sentences.text"
    end
  else
    let new_id := (Z.max (sequence db) (max_rowid (sentences db)) + 1)%Z in
    Done (mk_database (sentences db ++ [mk_row new_id t None now]) new_id) 1.

(** [UPDATE sentences SET perplexity = ? WHERE id = ?]. *)
Definition update_perplexity (value : option pyfloat) (sentence_id : Z)
  (db : database) : outcome :=
  Done (mk_database
          (map (fun r => if (id r =? sentence_id)%Z
                         then mk_row (id r) (text r) value (created_at r)
                         else r) (sentences db))
          (sequence db))
       (Z.of_nat (List.length
          (filter (fun r => (id r =? sentence_id)%Z) (sentences db)))).

(** The state a method works on: the database and the error reports
    printed so far. *)
Definition store_state : Type := database * list string.

(** One round of the loop of [store_sentences]; [now] is the clock that
    fills [created_at]. *)
Definition store_sentence (now : Z) (st : store_state) (sentence : string)
  : store_state :=
  let '(db, errors) := st in
  match insert_sentence OrIgnore now sentence db with
  | Done db' _ => (db', errors)
  | SqliteError e => (db, errors ++ [e])
  end.

Definition store_sentences (now : Z) (sentences : list string) (db : database)
  : store_state :=
  fold_left (store_sentence now) sentences (db, []).

(** [SELECT id, text FROM sentences WHERE perplexity IS NULL ORDER BY id]. *)
Definition get_pending_sentences (db : database) : list (Z * string) :=
  map (fun r => (id r, text r))
    (order_by (fun a b => (id a <=? id b)%Z)
       (filter (fun r => where_ (is_null (perplexity r))) (sentences db))).

Definition store_result (sentence_id : Z) (perplexity : pyfloat)
  (db : database) : store_state :=
  match update_perplexity (bind_float perplexity) sentence_id db with
  | Done db' _ => (db', [])
  | SqliteError e => (db, [e])
  end.

Section PerplexityBatchProcessor.

Variable encode : string -> exc (list Z).
Variable target_prob : list Z -> Z -> exc pyfloat.

(** One round of the loop over [range(len(tokens) - 1)]; the state is
    [(total_nll, num_predictions)]. *)
Definition predict_step (tokens : list Z) (st : pyfloat * Z) (i : nat)
  : exc (pyfloat * Z) :=
  let '(total_nll, num_predictions) := st in
  let context_tokens := firstn (i + 1) tokens in
  match nth_error tokens (i + 1) with
  | None => Raise "IndexError"
  | Some target_token =>
      p <- target_prob context_tokens target_token ;;
      if gt p (Fin 0) && negb (isinf p) && negb (isnan p) then
        l <- math_log p ;;
        let nll := neg l in
        Ok (add total_nll nll, (num_predictions + 1)%Z)
      else
        Ok (add total_nll (Fin 20), (num_predictions + 1)%Z)
  end.

(** The body of the [try] block. *)
Definition try_block (sentence : string) : exc pyfloat :=
  tokens <- encode sentence ;;
  if (Z.of_nat (List.length tokens) <? 2)%Z then Ok PInf
  else
    st <- for_each (predict_step tokens) (Fin 0, 0%Z)
            (seq 0 (List.length tokens - 1)) ;;
    let '(total_nll, num_predictions) := st in
    if (num_predictions =? 0)%Z then Ok PInf
    else
      avg_nll <- div_int total_nll num_predictions ;;
      math_exp avg_nll.

(** [except Exception: return float('inf')]. *)
Definition calculate_perplexity (sentence : string) : pyfloat :=
  match try_block sentence with
  | Ok perplexity => perplexity
  | Raise _ => PInf
  end.

(** One round of the loop of [process_batch].  The second component of the
    state records, in order, the ids handed to the scorer. *)
Definition score_and_store (st : database * list Z) (item : Z * string)
  : database * list Z :=
  let '(db, scored) := st in
  let '(sentence_id, sentence) := item in
  let perplexity := calculate_perplexity sentence in
  (fst (store_result sentence_id perplexity db), scored ++ [sentence_id]).

(** [process_batch].  The pending list is read once.  [interrupt = Some n]
    is a run stopped from outside (KeyboardInterrupt) once [n] records have
    been scored and committed; [None] is a run left alone. *)
Definition process_batch (interrupt : option nat) (db : database)
  : database * list Z :=
  let pending := get_pending_sentences db in
  let reached :=
    match interrupt with
    | Some n => firstn n pending
    | None => pending
    end in
  fold_left score_and_store reached (db, []).

End PerplexityBatchProcessor.

(** The figures [print_statistics] prints. *)
Record statistics : Type := mk_statistics {
  total_sentences : Z;
  processed_sentences : Z;
  remaining_sentences : Z;
  average : option pyfloat;
  minimum : option pyfloat;
  maximum : option pyfloat
}.

Definition count_where (p : sentence_row -> option bool) (db : database) : Z :=
  Z.of_nat (List.length (filter (fun r => where_ (p r)) (sentences db))).

(** The rows of
    [WHERE perplexity IS NOT NULL AND perplexity != 'inf']. *)
Definition scored_not_inf (r : sentence_row) : option bool :=
  sql_and (is_not_null (perplexity r))
          (sql_ne (perplexity r) (SqlText "inf")).

Definition print_statistics (db : database) : statistics :=
  let total := Z.of_nat (List.length (sentences db)) in
  let processed := count_where (fun r => is_not_null (perplexity r)) db in
  let vals := map perplexity
                (filter (fun r => where_ (scored_not_inf r)) (sentences db)) in
  mk_statistics total processed (total - processed)
    (sql_avg vals) (sql_min vals) (sql_max vals).

(** [split_into_sentences]: the stripped pieces of more than five
    characters. *)
Definition split_into_sentences (text : string) : list string :=
  let text := strip text in
  let sentences := re_split_endings text in
  map strip
    (filter (fun s => negb (String.eqb (strip s) "")
                      && (5 <? String.length (strip s))%nat) sentences).

(** [SELECT text, perplexity FROM sentences WHERE perplexity IS NOT NULL
    ORDER BY perplexity DESC]. *)
Definition get_results_sorted (db : database) : list (string * option pyfloat) :=
  map (fun r => (text r, perplexity r))
    (order_by (fun a b => order_leb (perplexity b) (perplexity a))
       (filter (fun r => where_ (is_not_null (perplexity r))) (sentences db))).

(** The options of the command line that decide what [main] does. *)
Record arguments : Type := mk_arguments {
  input : string;
  stats_only : bool;
  results_only : bool
}.

(** What [main] shows. *)
Inductive shown : Type :=
| Statistics (s : statistics)
| Results (l : list (string * option pyfloat))
| Message (msg : string).

Section Main.
Variable encode : string -> exc (list Z).
Variable target_prob : list Z -> Z -> exc pyfloat.

(** [main], left to run to its end: the store it leaves and what it
    showed.  [file] is the database file found at start, [content] the
    content of the input file, absent when there is no such file, and
    [now] the clock at insertion. *)
Definition main (args : arguments) (content : option string) (now : Z)
  (file : option database) : database * list shown :=
  let db := init_database file in
  if stats_only args then (db, [Statistics (print_statistics db)])
  else if results_only args then
    match get_results_sorted db with
    | [] => (db, [Message "Aucun résultat disponible."])
    | results => (db, [Results results])
    end
  else
    match content with
    | None =>
        (db, [Message ("Erreur : Le fichier " ++ input args
                       ++ " n'existe pas.")%string])
    | Some text =>
        let sentences := split_into_sentences text in
        let db1 := fst (store_sentences now sentences db) in
        let before := print_statistics db1 in
        let db2 := fst (process_batch encode target_prob None db1) in
        (db2, [Statistics before; Statistics (print_statistics db2)])
    end.

End Main.

End BatchProcessor.

(* ------------------------------------------------------------------ *)
(** ** extract_results.py *)

Module Extractor.
Import Sqlite.
Import BatchProcessor.

(** The dictionary [get_statistics] returns. *)
Record stats : Type := mk_stats {
  total : Z;
  processed : Z;
  remaining : Z;
  avg_perplexity : option pyfloat;
  min_perplexity : option pyfloat;
  max_perplexity : option pyfloat;
  infinite_count : Z
}.

Definition get_statistics (db : database) : stats :=
  let total_sentences := Z.of_nat (List.length (sentences db)) in
  let processed_sentences :=
    count_where (fun r => is_not_null (perplexity r)) db in
  let vals := map perplexity
                (filter (fun r => where_ (scored_not_inf r)) (sentences db)) in
  let infinite :=
    count_where (fun r => sql_eq (perplexity r) (SqlText "inf")) db in
  mk_stats total_sentences processed_sentences
    (total_sentences - processed_sentences)
    (sql_avg vals) (sql_min vals) (sql_max vals) infinite.

(** The pairs [(text, perplexity)] a SELECT returns. *)
Definition scored : Type := string * option pyfloat.

Definition text_perplexity (r : sentence_row) : scored :=
  (text r, perplexity r).

(** ORDER BY perplexity DESC / ASC. *)
Definition perplexity_desc (a b : sentence_row) : bool :=
  order_leb (perplexity b) (perplexity a).
Definition perplexity_asc (a b : sentence_row) : bool :=
  order_leb (perplexity a) (perplexity b).

(** An optional bound of the query: absent, no condition is added; present,
    the float is bound to the [?] of the condition. *)
Definition optional_bound (cmp : option pyfloat -> sqlvalue -> option bool)
  (bound : option pyfloat) (r : sentence_row) : option bool :=
  match bound with
  | None => Some true
  | Some b => cmp (perplexity r) (column (bind_float b))
  end.

Definition get_sentences_by_perplexity (limit_ : option Z)
  (min_perplexity_ max_perplexity_ : option pyfloat) (db : database)
  : list scored :=
  let rows :=
    order_by perplexity_desc
      (filter (fun r => where_
         (sql_and (sql_and (is_not_null (perplexity r))
                           (optional_bound sql_ge min_perplexity_ r))
                  (optional_bound sql_le max_perplexity_ r)))
         (sentences db)) in
  map text_perplexity
    match limit_ with
    | Some n => limit n rows
    | None => rows
    end.

Definition get_top_perplexity_sentences (n : Z) (db : database) : list scored :=
  get_sentences_by_perplexity (Some n) None None db.

(** [perplexity * LOG(LENGTH(text))]. *)
Definition complexity_score (r : sentence_row) : option pyfloat :=
  sql_mul (perplexity r) (LOG (LENGTH (text r))).

Definition get_most_complex_sentences (n min_length : Z) (db : database)
  : list (string * option pyfloat * option pyfloat) :=
  map (fun r => (text r, perplexity r, complexity_score r))
    (limit n
       (order_by (fun a b => order_leb (complexity_score b) (complexity_score a))
          (filter (fun r => where_ (scored_not_inf r)
                            && (min_length <=? LENGTH (text r))%Z)
             (sentences db)))).

Definition get_bottom_perplexity_sentences (n : Z) (db : database)
  : list scored :=
  map text_perplexity
    (limit n
       (order_by perplexity_asc
          (filter (fun r => where_ (scored_not_inf r)) (sentences db)))).

Definition search_sentences (keyword : string) (case_sensitive : bool)
  (db : database) : list scored :=
  let pattern := ("%" ++ keyword ++ "%")%string in
  map text_perplexity
    (order_by perplexity_desc
       (filter (fun r =>
          (if case_sensitive then LIKE (text r) pattern
           else LIKE (LOWER (text r)) (LOWER pattern))
          && where_ (is_not_null (perplexity r)))
          (sentences db))).

(** *** Export *)

Definition quote_char : ascii := ascii_of_nat 34.
Definition quote : string := String quote_char EmptyString.
Definition newline : string := String (ascii_of_nat 10) EmptyString.

(** [sentence.replace] of every quote by two quotes. *)
Fixpoint escape_quotes (s : string) : string :=
  match s with
  | EmptyString => EmptyString
  | String c s' =>
      if Ascii.eqb c quote_char
      then String quote_char (String quote_char (escape_quotes s'))
      else String c (escape_quotes s')
  end.

Fixpoint repeat_string (s : string) (n : nat) : string :=
  match n with
  | O => EmptyString
  | S n' => (s ++ repeat_string s n')%string
  end.

Section ExportFormats.

(** How a float is printed is left to Python: [float_str] is [str(x)],
    [float_2f] is the format [.2f], and [json_dump] is [json.dump] with
    [ensure_ascii=False, indent=2]. *)
Variable float_str : pyfloat -> string.
Variable float_2f : pyfloat -> string.
Variable json_dump : list scored -> string.

Definition str_perplexity (p : option pyfloat) : string :=
  match p with
  | Some x => float_str x
  | None => "None"%string
  end.

Definition standard_line (item : scored) : string :=
  let '(sentence, perplexity) := item in
  let perp_str :=
    match perplexity with
    | Some PInf => "∞"%string
    | Some x => float_2f x
    | None => "None"%string
    end in
  (sentence ++ " [[" ++ perp_str ++ "]]" ++ newline)%string.

Definition csv_line (item : scored) : string :=
  let '(sentence, perplexity) := item in
  let escaped_sentence := escape_quotes sentence in
  (quote ++ escaped_sentence ++ quote ++ "," ++ str_perplexity perplexity
     ++ newline)%string.

(** The text [export_to_text] writes to [output_path]. *)
Definition export_to_text (format_type : string) (db : database) : string :=
  let sentences := get_sentences_by_perplexity None None None db in
  if String.eqb format_type "standard" then
    ("PHRASES TRIÉES PAR PERPLEXITÉ DÉCROISSANTE" ++ newline
       ++ repeat_string "=" 80 ++ newline ++ newline
       ++ String.concat "" (map standard_line sentences))%string
  else if String.eqb format_type "csv" then
    ("sentence,perplexity" ++ newline
       ++ String.concat "" (map csv_line sentences))%string
  else if String.eqb format_type "json" then
    json_dump sentences
  else EmptyString.

(** *** The command line *)

Record arguments : Type := mk_arguments {
  output : option string;
  format : string;
  limit_arg : option Z;
  top : option Z;
  bottom : option Z;
  complex : option Z;
  min_length : Z;
  min_perplexity_arg : option pyfloat;
  max_perplexity_arg : option pyfloat;
  search : option string;
  case_sensitive_arg : bool;
  stats_only : bool
}.

(** Truth value of an optional int and of an optional string in an [if]. *)
Definition truthy (n : option Z) : bool :=
  match n with
  | Some z => negb (z =? 0)%Z
  | None => false
  end.

Definition truthy_str (s : option string) : bool :=
  match s with
  | Some EmptyString | None => false
  | Some _ => true
  end.

(** The int or string held by an option that passed the test. *)
Definition int_of (n : option Z) : Z :=
  match n with Some z => z | None => 0%Z end.

Definition str_of (s : option string) : string :=
  match s with Some t => t | None => EmptyString end.

(** The value of [sentences] in [main]: pairs, or triples with the
    complexity score. *)
Inductive view : Type :=
| Pairs (l : list scored)
| Triples (l : list (string * option pyfloat * option pyfloat)).

(** The view selected by the options. *)
Definition selected_view (args : arguments) (db : database) : view :=
  if truthy (top args) then
    Pairs (get_top_perplexity_sentences (int_of (top args)) db)
  else if truthy (bottom args) then
    Pairs (get_bottom_perplexity_sentences (int_of (bottom args)) db)
  else if truthy (complex args) then
    Triples (get_most_complex_sentences (int_of (complex args))
               (min_length args) db)
  else if truthy_str (search args) then
    Pairs (search_sentences (str_of (search args))
             (case_sensitive_arg args) db)
  else
    Pairs (get_sentences_by_perplexity (limit_arg args)
             (min_perplexity_arg args) (max_perplexity_arg args) db).

(** What [main] does after the statistics: nothing more, print the selected
    view, or write a file. *)
Inductive action : Type :=
| Nothing
| Printed (sentences : view)
| Saved (path : string) (content : string).

Definition main (args : arguments) (db : database) : stats * action :=
  let stats := get_statistics db in
  if stats_only args then (stats, Nothing)
  else
    let sentences := selected_view args db in
    match output args with
    | Some path => (stats, Saved path (export_to_text (format args) db))
    | None => (stats, Printed sentences)
    end.

End ExportFormats.
(** [perplexity * POWER(LENGTH(text), ?)]. *)
Definition weighted_score (complexity_weight : pyfloat) (r : sentence_row)
  : option pyfloat :=
  sql_mul (perplexity r)
          (POWER (LENGTH (text r)) (bind_float complexity_weight)).

Definition get_sentences_by_complexity (limit_ : option Z) (min_length : Z)
  (complexity_weight : pyfloat) (db : database)
  : list (string * option pyfloat * option pyfloat) :=
  let rows :=
    order_by (fun a b => order_leb (weighted_score complexity_weight b)
                                   (weighted_score complexity_weight a))
      (filter (fun r => where_ (scored_not_inf r)
                        && (min_length <=? LENGTH (text r))%Z)
         (sentences db)) in
  map (fun r => (text r, perplexity r, weighted_score complexity_weight r))
    match limit_ with
    | Some n => limit n rows
    | None => rows
    end.

End Extractor.

(* ------------------------------------------------------------------ *)
(** ** The scoring algorithm as the specification words it *)

Module ScorerSpec.

(** The negative log-likelihood charged to one position: [- ln p] for a
    finite positive probability, the penalty 20 for anything else. *)
Definition position_nll (p : pyfloat) : R :=
  match p with
  | Fin r => if Rlt_dec 0 r then (- ln r)%R else 20%R
  | _ => 20%R
  end.

Definition total_nll (probs : list pyfloat) : R :=
  fold_right Rplus 0%R (map position_nll probs).

(** [probs] holds the probability the model gave to the actual next token
    at each of the [len(tokens) - 1] positions. *)
Definition perplexity_of (tokens : list Z) (probs : list pyfloat) : pyfloat :=
  if (List.length tokens <? 2)%nat then PInf
  else Fin (exp (total_nll probs / INR (List.length probs))).

(** The model answers [probs] on [tokens]: at position [i] it is asked
    about the context [tokens[0..i]] and the target [tokens[i+1]]. *)
Definition answers (target_prob : list Z -> Z -> exc pyfloat)
  (tokens : list Z) (probs : list pyfloat) : Prop :=
  List.length probs = (List.length tokens - 1)%nat /\
  forall i target,
    nth_error tokens (i + 1) = Some target ->
    target_prob (firstn (i + 1) tokens) target = Ok (nth i probs NaN).

(** A score is strictly positive: infinite, or finite and above zero. *)
Definition strictly_positive (v : pyfloat) : Prop :=
  v = PInf \/ exists r, v = Fin r /\ (0 < r)%R.

End ScorerSpec.

(* ------------------------------------------------------------------ *)
(** ** Observations on a store, used to state its properties *)

Module StoreSpec.
Import BatchProcessor.

(** How many records carry the text [t], and how many the id [sid]. *)
Definition count_text (t : string) (db : database) : nat :=
  List.length (filter (fun r => String.eqb (text r) t) (sentences db)).

Definition count_id (sid : Z) (db : database) : nat :=
  List.length (filter (fun r => (id r =? sid)%Z) (sentences db)).

(** The score held by the record with id [sid]; [None] when it is absent. *)
Definition stored_score (sid : Z) (db : database) : option pyfloat :=
  match find (fun r => (id r =? sid)%Z) (sentences db) with
  | Some r => perplexity r
  | None => None
  end.

(** The largest id the store has handed out or holds. *)
Definition high_water (db : database) : Z :=
  Z.max (sequence db) (max_rowid (sentences db)).

(** The ids ascend along the table. *)
Definition ascending_ids (db : database) : Prop :=
  StronglySorted Z.lt (map id (sentences db)).

(** [added] is what a call of [store_sentences] on [given] at time [now]
    appended to [db] to reach [db']: unscored rows with texts among the
    given ones that [db] did not hold, each text once, with ascending ids
    above every id of [db]. *)
Definition appended (now : Z) (given : list string) (db db' : database)
  (added : list sentence_row) : Prop :=
  sentences db' = sentences db ++ added
  /\ Forall (fun r => perplexity r = None /\ In (text r) given
                      /\ created_at r = now
                      /\ (high_water db < id r <= high_water db')%Z) added
  /\ NoDup (map text added)
  /\ (forall r, In r added -> ~ In (text r) (map text (sentences db)))
  /\ StronglySorted Z.lt (map id added)
  /\ (high_water db <= high_water db')%Z.

(** What a batch run that scored the ids [ids] with [calc] makes of one
    row: a score that was there stays, a pending row among [ids] receives
    the score of its own text, any other pending row stays pending. *)
Definition scored_by (calc : string -> pyfloat) (ids : list Z)
  (r r' : sentence_row) : Prop :=
  id r' = id r /\ text r' = text r /\ created_at r' = created_at r
  /\ match perplexity r with
     | Some x => perplexity r' = Some x
     | None =>
         (In (id r) ids -> perplexity r' = Some (calc (text r)))
         /\ (~ In (id r) ids -> perplexity r' = None)
     end.

(** Every score in the store is strictly positive. *)
Definition scores_positive (db : database) : Prop :=
  forall r x, In r (sentences db) -> perplexity r = Some x ->
    ScorerSpec.strictly_positive x.

(** What an UPDATE of the score of [sid] to [value] makes of one row. *)
Definition row_after_update (sid : Z) (value : option pyfloat)
  (r r' : sentence_row) : Prop :=
  if (id r =? sid)%Z
  then r' = mk_row (id r) (text r) value (created_at r)
  else r' = r.

End StoreSpec.

(* ------------------------------------------------------------------ *)
(** ** Observations on the ranking views *)

Module RankingSpec.
Import Sqlite BatchProcessor.

(** [keyword] occurs in [text], letter case included. *)
Fixpoint contains (keyword text : string) : bool :=
  String.prefix keyword text ||
  match text with
  | EmptyString => false
  | String _ text' => contains keyword text'
  end.

(** The finite score of a row, zero when it has none. *)
Definition finite_score (r : sentence_row) : R :=
  match perplexity r with
  | Some (Fin x) => x
  | _ => 0%R
  end.


(** The complexity score with the natural logarithm, as the specification
    words it, and with the base-10 logarithm. *)
Definition ln_complexity (r : sentence_row) : R :=
  (finite_score r * ln (IZR (LENGTH (text r))))%R.




(** [store_result] reports an error whenever no record has the id. *)
Definition fails_when_absent : Prop :=
  forall (db : database) (sid : Z) (p : pyfloat),
    StoreSpec.count_id sid db = 0%nat ->
    snd (store_result sid p db) <> [].

End RankingSpec.

(* ------------------------------------------------------------------ *)
(** ** Sample stores *)

Module Samples.
Import BatchProcessor.

(** A: 5.0, B: infinite, C: not scored. *)
Definition store_A5_Binf_C : database :=
  mk_database [mk_row 1 "A" (Some (Fin 5)) 0;
               mk_row 2 "B" (Some PInf) 0;
               mk_row 3 "C" None 0] 3.

(** A: 5.0, B: infinite. *)
Definition store_A5_Binf : database :=
  mk_database [mk_row 1 "A" (Some (Fin 5)) 0;
               mk_row 2 "B" (Some PInf) 0] 2.

Definition store_hello : database :=
  mk_database [mk_row 1 "Hello World" (Some (Fin 5)) 0] 1.


(** Three sentences, none scored. *)
Definition store_pending : database :=
  mk_database [mk_row 1 "One sentence" None 0;
               mk_row 2 "Two sentences" None 0;
               mk_row 3 "Three sentences" None 0] 3.

(** A tokenizer that yields three tokens, and a model that gives one half
    to every next token. *)
Definition three_tokens (_ : string) : exc (list Z) := Ok [1; 2; 3]%Z.
Definition one_half (_ : list Z) (_ : Z) : exc pyfloat := Ok (Fin (/ 2)).

(** [--bottom 1 --output out.csv --format csv]. *)
Definition bottom_1_csv : Extractor.arguments :=
  Extractor.mk_arguments (Some "out.csv"%string) "csv" None None (Some 1%Z)
    None 50 None None None false false.

End Samples.

(* ------------------------------------------------------------------ *)
(** ** Observations on text *)

Module TextSpec.

Definition chars (s : string) : list ascii := list_ascii_of_string s.

(** Neither the first nor the last character is whitespace. *)
Definition clean_edges (s : string) : Prop :=
  (forall c, hd_error (chars s) = Some c -> isspace c = false)
  /\ (forall c, hd_error (rev (chars s)) = Some c -> isspace c = false).



(** The text holds no ending character. *)
Definition no_ending (s : string) : Prop :=
  Forall (fun c => is_ending c = false) (chars s).

(** Order of two scores, neither of them NaN. *)
Definition float_le (a b : pyfloat) : Prop :=
  match a, b with
  | NaN, _ | _, NaN => False
  | NInf, _ => True
  | _, PInf => True
  | Fin x, Fin y => (x <= y)%R
  | _, _ => False
  end.

End TextSpec.

(* ------------------------------------------------------------------ *)
(** ** Observations on queries *)

Module QuerySpec.
Import Sqlite BatchProcessor TextSpec.

(** No stored score is NaN; binding a float keeps it so. *)
Definition nan_free (db : database) : Prop :=
  forall r, In r (sentences db) -> perplexity r <> Some NaN.

(** An optional lower or upper bound on a score. *)
Definition above (lo : option pyfloat) (x : pyfloat) : Prop :=
  match lo with
  | None => True
  | Some l => float_le l x
  end.

Definition below (hi : option pyfloat) (x : pyfloat) : Prop :=
  match hi with
  | None => True
  | Some h => float_le x h
  end.

(** Two scores in descending order. *)
Definition score_ge (a b : option pyfloat) : Prop :=
  match a, b with
  | Some x, Some y => float_le y x
  | _, _ => False
  end.




End QuerySpec.

(* ------------------------------------------------------------------ *)
(** ** More samples *)

Module MoreSamples.
Import BatchProcessor.




End MoreSamples.

(* ------------------------------------------------------------------ *)
(** * Properties of the scorer *)

Section ScorerFacts.
Import ScorerSpec.

Variable encode : string -> exc (list Z).
Variable target_prob : list Z -> Z -> exc pyfloat.

Lemma simple_is_calculate_perplexity (sentence : string) :
  PhraseSorter.calculate_perplexity_simple encode target_prob sentence
  = BatchProcessor.calculate_perplexity encode target_prob sentence.
Proof. reflexivity. Qed.

(** What a probability adds to the running total. *)
Lemma charge_position (p : pyfloat) (t : R) (c : Z) :
  (if gt p (Fin 0) && negb (isinf p) && negb (isnan p)
   then l <- math_log p ;; Ok (add (Fin t) (neg l), (c + 1)%Z)
   else Ok (add (Fin t) (Fin 20), (c + 1)%Z))
  = Ok (Fin (t + position_nll p), (c + 1)%Z).
Proof.
  destruct p as [r| | |]; cbn; try reflexivity.
  destruct (Rlt_dec 0 r); cbn; reflexivity.
Qed.

(** Every round of the loop that does not raise keeps the total finite and
    counts one prediction. *)
Lemma predict_step_finite tokens t c i st :
  BatchProcessor.predict_step target_prob tokens (Fin t, c) i = Ok st ->
  exists t', st = (Fin t', (c + 1)%Z).
Proof.
  unfold BatchProcessor.predict_step.
  destruct (nth_error tokens (i + 1)) as [target|]; [|discriminate].
  destruct (target_prob (firstn (i + 1) tokens) target) as [p|e]; cbn [bind];
    [|discriminate].
  rewrite charge_position. intros H; injection H as <-. eauto.
Qed.

Lemma loop_finite tokens items : forall t c st,
  for_each (BatchProcessor.predict_step target_prob tokens) (Fin t, c) items
    = Ok st ->
  exists t', st = (Fin t', (c + Z.of_nat (List.length items))%Z).
Proof.
  induction items as [|i items IH]; intros t c st; cbn [for_each List.length].
  - intros H; injection H as <-. exists t. f_equal. lia.
  - destruct (BatchProcessor.predict_step target_prob tokens (Fin t, c) i)
      as [st'|e] eqn:E; [|discriminate].
    apply predict_step_finite in E as [t' ->]. intros H.
    apply IH in H as [t'' ->]. exists t''. f_equal. lia.
Qed.

(** The scorer never hands back NaN, zero or a negative number. *)
Lemma calculate_perplexity_positive (sentence : string) :
  strictly_positive
    (BatchProcessor.calculate_perplexity encode target_prob sentence).
Proof.
  unfold BatchProcessor.calculate_perplexity, BatchProcessor.try_block.
  destruct (encode sentence) as [tokens|e]; cbn; [|now left].
  destruct (Z.of_nat (List.length tokens) <? 2)%Z; [now left|].
  destruct (for_each _ _ _) as [st|e] eqn:E; cbn; [|now left].
  apply loop_finite in E as [t ->].
  destruct (_ =? 0)%Z eqn:Hz; [now left|].
  unfold div_int. rewrite Hz. cbn.
  right. eexists. split; [reflexivity|apply exp_pos].
Qed.

Lemma calculate_perplexity_not_nan (sentence : string) :
  BatchProcessor.calculate_perplexity encode target_prob sentence <> NaN.
Proof.
  destruct (calculate_perplexity_positive sentence) as [H|(r & H & _)];
    rewrite H; discriminate.
Qed.

(** The loop over the positions [a, a+1, ..., a+k-1], when the model
    answers [probs]. *)
Lemma loop_total tokens probs :
  answers target_prob tokens probs ->
  forall k a t c,
    (a + k <= List.length tokens - 1)%nat ->
    for_each (BatchProcessor.predict_step target_prob tokens) (Fin t, c)
      (seq a k)
    = Ok (Fin (t + fold_right Rplus 0%R
                     (map (fun i => position_nll (nth i probs NaN)) (seq a k))),
          (c + Z.of_nat k)%Z).
Proof.
  intros [Hlen Hans]. induction k as [|k IH]; intros a t c Hk.
  - cbn. apply f_equal, f_equal2; [apply f_equal; lra|lia].
  - cbn [seq for_each map fold_right].
    unfold BatchProcessor.predict_step at 1.
    destruct (nth_error tokens (a + 1)) as [target|] eqn:Ht.
    2:{ apply nth_error_None in Ht. lia. }
    rewrite (Hans _ _ Ht). cbn [bind]. rewrite charge_position.
    rewrite IH by lia. apply f_equal, f_equal2; [apply f_equal; lra|lia].
Qed.

Lemma map_nth_seq (probs : list pyfloat) :
  map (fun i => nth i probs NaN) (seq 0 (List.length probs)) = probs.
Proof.
  induction probs as [|p probs IH]; [reflexivity|].
  cbn [List.length seq map nth]. f_equal.
  rewrite <- seq_shift, map_map. exact IH.
Qed.

(** C1.  When the tokenizer yields [tokens] and the model answers [probs],
    both scorers return what the algorithm of the specification gives:
    infinite for fewer than two tokens, and otherwise the exponential of the
    summed per-position charges ([- ln p] for a finite positive [p], else
    20) divided by the number of positions. *)
Theorem scorer_follows_algorithm (sentence : string) (tokens : list Z)
  (probs : list pyfloat) :
  encode sentence = Ok tokens ->
  answers target_prob tokens probs ->
  BatchProcessor.calculate_perplexity encode target_prob sentence
    = perplexity_of tokens probs
  /\ PhraseSorter.calculate_perplexity_simple encode target_prob sentence
    = perplexity_of tokens probs.
Proof.
  intros Henc Hans.
  enough (BatchProcessor.calculate_perplexity encode target_prob sentence
          = perplexity_of tokens probs) as H by (split; exact H).
  unfold BatchProcessor.calculate_perplexity, BatchProcessor.try_block,
    perplexity_of.
  rewrite Henc. cbn [bind].
  destruct (List.length tokens <? 2)%nat eqn:Hshort.
  - apply Nat.ltb_lt in Hshort.
    replace (Z.of_nat (List.length tokens) <? 2)%Z with true
      by (symmetry; apply Z.ltb_lt; lia).
    reflexivity.
  - apply Nat.ltb_ge in Hshort.
    replace (Z.of_nat (List.length tokens) <? 2)%Z with false
      by (symmetry; apply Z.ltb_ge; lia).
    rewrite (loop_total tokens probs Hans) by lia. cbn [bind].
    destruct Hans as [Hlen _]. rewrite <- Hlen.
    rewrite <- (map_map (fun i => nth i probs NaN) position_nll), map_nth_seq.
    replace (0 + Z.of_nat (List.length probs) =? 0)%Z with false
      by (symmetry; apply Z.eqb_neq; lia).
    unfold div_int.
    replace (0 + Z.of_nat (List.length probs) =? 0)%Z with false
      by (symmetry; apply Z.eqb_neq; lia).
    cbn [bind math_exp]. unfold total_nll.
    rewrite Z.add_0_l, <- INR_IZR_INZ, Rplus_0_l. reflexivity.
Qed.

(** C10.  Whatever the tokenizer and the model return or raise, the score
    of either scorer is strictly positive: it is the infinite value or a
    finite number above zero, hence never zero, negative or NaN. *)
Theorem scorer_strictly_positive (sentence : string) :
  strictly_positive
    (BatchProcessor.calculate_perplexity encode target_prob sentence)
  /\ strictly_positive
    (PhraseSorter.calculate_perplexity_simple encode target_prob sentence).
Proof.
  split; [|rewrite (simple_is_calculate_perplexity sentence)];
    apply calculate_perplexity_positive.
Qed.

End ScorerFacts.

(** A tokenizer that yields three tokens and a model that gives one half to
    every next token. *)
Lemma scorer_follows_algorithm_witness :
  let encode := fun _ : string => Ok [1; 2; 3]%Z in
  let target_prob := fun (_ : list Z) (_ : Z) => Ok (Fin (/ 2)) in
  BatchProcessor.calculate_perplexity encode target_prob "abc"
    = ScorerSpec.perplexity_of [1; 2; 3]%Z [Fin (/ 2); Fin (/ 2)]
  /\ PhraseSorter.calculate_perplexity_simple encode target_prob "abc"
    = ScorerSpec.perplexity_of [1; 2; 3]%Z [Fin (/ 2); Fin (/ 2)].
Proof.
  intros encode target_prob.
  apply (scorer_follows_algorithm encode target_prob "abc"
           [1; 2; 3]%Z [Fin (/ 2); Fin (/ 2)]).
  - reflexivity.
  - split; [reflexivity|].
    intros i target. rewrite Nat.add_1_r.
    destruct i as [|[|i]]; cbn; try reflexivity.
    destruct i; discriminate.
Defined.

(* ------------------------------------------------------------------ *)
(** * Sorting facts behind ORDER BY *)

Section OrderBy.
Import Sqlite.

Context {A : Type}.
Variable leb : A -> A -> bool.

Local Abbreviation ole := (le_of leb).

Lemma insert_sorted_perm (x : A) (l : list A) :
  Permutation (insert_sorted leb x l) (x :: l).
Proof.
  induction l as [|y l IH]; cbn; [reflexivity|].
  destruct (leb x y); [reflexivity|].
  rewrite IH. apply perm_swap.
Qed.

Lemma order_by_perm (l : list A) : Permutation (order_by leb l) l.
Proof.
  induction l as [|x l IH]; cbn; [reflexivity|].
  rewrite insert_sorted_perm. now constructor.
Qed.

Hypothesis leb_total : forall a b, leb a b = true \/ leb b a = true.

Lemma insert_sorted_sorted (x : A) (l : list A) :
  Sorted ole l -> Sorted ole (insert_sorted leb x l).
Proof.
  induction l as [|y l IH]; cbn; intros Hs.
  - repeat constructor.
  - destruct (leb x y) eqn:E.
    + constructor; [assumption|]. constructor. exact E.
    + inversion Hs as [|? ? Hl Hhd]; subst.
      constructor; [apply IH; assumption|].
      assert (Hyx : ole y x) by (destruct (leb_total x y); congruence).
      destruct l as [|z l]; cbn.
      * constructor. exact Hyx.
      * destruct (leb x z); constructor; [exact Hyx|].
        inversion Hhd; assumption.
Qed.

Lemma order_by_sorted (l : list A) : Sorted ole (order_by leb l).
Proof.
  induction l as [|x l IH]; cbn; [constructor|].
  now apply insert_sorted_sorted.
Qed.

Hypothesis leb_trans :
  forall a b c, leb a b = true -> leb b c = true -> leb a c = true.

Lemma order_by_strongly_sorted (l : list A) :
  StronglySorted ole (order_by leb l).
Proof.
  apply Sorted_StronglySorted; [|apply order_by_sorted].
  intros a b c. apply leb_trans.
Qed.

(** Inserting into a sorted list commutes with filtering it. *)
Lemma filter_insert_sorted (q : A -> bool) (x : A) (l : list A) :
  StronglySorted ole l ->
  filter q (insert_sorted leb x l)
  = if q x then insert_sorted leb x (filter q l) else filter q l.
Proof.
  induction l as [|y l IH]; intros Hs.
  - cbn. destruct (q x); reflexivity.
  - inversion Hs as [|? ? Hl Hall]; subst. cbn [insert_sorted].
    destruct (leb x y) eqn:E.
    + cbn [filter]. destruct (q x) eqn:Qx; [|reflexivity].
      destruct (q y) eqn:Qy.
      * cbn [insert_sorted]. now rewrite E.
      * assert (Hx : Forall (ole x) (filter q l)).
        { rewrite Forall_forall in *. intros z Hz.
          apply filter_In in Hz as [Hz _].
          apply (leb_trans x y z); [exact E|apply Hall, Hz]. }
        destruct (filter q l) as [|z l']; [reflexivity|].
        cbn [insert_sorted]. inversion Hx as [|? ? Hz _]; subst.
        unfold ole in Hz. now rewrite Hz.
    + cbn [filter]. rewrite (IH Hl).
      destruct (q y) eqn:Qy, (q x) eqn:Qx; try reflexivity.
      cbn [insert_sorted]. now rewrite E.
Qed.

Lemma filter_order_by (q : A -> bool) (l : list A) :
  filter q (order_by leb l) = order_by leb (filter q l).
Proof.
  induction l as [|x l IH]; [reflexivity|].
  cbn [order_by fold_right filter].
  rewrite filter_insert_sorted by apply order_by_strongly_sorted.
  fold (order_by leb l). rewrite IH.
  destruct (q x); reflexivity.
Qed.

End OrderBy.

(* ------------------------------------------------------------------ *)
(** * The work store *)

Section StoreFacts.
Import Sqlite BatchProcessor StoreSpec.

Lemma filter_text_absent (t : string) (rows : list sentence_row) :
  ~ In t (map text rows) ->
  filter (fun r => String.eqb (text r) t) rows = [].
Proof.
  induction rows as [|r rows IH]; cbn; intros Hn; [reflexivity|].
  destruct (String.eqb (text r) t) eqn:E.
  - apply String.eqb_eq in E. tauto.
  - apply IH. tauto.
Qed.

Lemma existsb_text_absent (t : string) (rows : list sentence_row) :
  existsb (fun r => String.eqb (text r) t) rows = false ->
  ~ In t (map text rows).
Proof.
  induction rows as [|r rows IH]; cbn; [tauto|].
  intros H. apply orb_false_iff in H as [Hr Hrows].
  apply String.eqb_neq in Hr. intros [E|Hin]; [congruence|].
  now apply IH.
Qed.

(** Under the UNIQUE constraint a text that is present is present once. *)
Lemma unique_text_count (t : string) (rows : list sentence_row) :
  NoDup (map text rows) ->
  existsb (fun r => String.eqb (text r) t) rows = true ->
  List.length (filter (fun r => String.eqb (text r) t) rows) = 1%nat.
Proof.
  induction rows as [|r rows IH]; cbn; [discriminate|].
  intros Hnd Hex. inversion Hnd as [|? ? Hnotin Hnd']; subst.
  destruct (String.eqb (text r) t) eqn:E.
  - apply String.eqb_eq in E. subst t.
    now rewrite filter_text_absent.
  - cbn in Hex. now apply IH.
Qed.

Lemma store_one_sentence (now : Z) (t : string) (db : database) :
  store_sentences now [t] db =
  if existsb (fun r => String.eqb (text r) t) (sentences db)
  then (db, [])
  else (mk_database
          (sentences db ++
             [mk_row (Z.max (sequence db) (max_rowid (sentences db)) + 1)
                     t None now])
          (Z.max (sequence db) (max_rowid (sentences db)) + 1), []).
Proof.
  unfold store_sentences, store_sentence, insert_sentence. cbn [fold_left].
  destruct (existsb _ _); reflexivity.
Qed.

Lemma store_one_sentence_no_error (now : Z) (t : string) (db : database) :
  snd (store_sentences now [t] db) = [].
Proof.
  rewrite store_one_sentence.
  destruct (existsb _ (sentences db)); reflexivity.
Qed.



(** *** Updating one score *)

Lemma store_result_rows (sid : Z) (p : pyfloat) (db : database) :
  store_result sid p db =
  (mk_database
     (map (fun r => if (id r =? sid)%Z
                    then mk_row (id r) (text r) (bind_float p) (created_at r)
                    else r) (sentences db))
     (sequence db), []).
Proof. reflexivity. Qed.

Lemma primary_key_count (sid : Z) (rows : list sentence_row) :
  NoDup (map id rows) ->
  (List.length (filter (fun r => (id r =? sid)%Z) rows) <= 1)%nat.
Proof.
  induction rows as [|r rows IH]; cbn; intros Hnd; [lia|].
  inversion Hnd as [|? ? Hnotin Hnd']; subst.
  destruct (id r =? sid)%Z eqn:E; [|now apply IH].
  apply Z.eqb_eq in E. cbn.
  assert (Hnil : filter (fun r0 => (id r0 =? sid)%Z) rows = []).
  { destruct (filter _ rows) as [|r' l] eqn:F; [reflexivity|].
    assert (Hin : In r' (filter (fun r0 => (id r0 =? sid)%Z) rows))
      by (rewrite F; now left).
    apply filter_In in Hin as [Hin Hid]. apply Z.eqb_eq in Hid.
    exfalso. apply Hnotin. rewrite E, <- Hid. now apply in_map. }
  rewrite Hnil. cbn. lia.
Qed.

Lemma update_absent (sid : Z) (v : option pyfloat) (rows : list sentence_row) :
  filter (fun r => (id r =? sid)%Z) rows = [] ->
  map (fun r => if (id r =? sid)%Z
                then mk_row (id r) (text r) v (created_at r) else r) rows
  = rows.
Proof.
  induction rows as [|r rows IH]; cbn; [reflexivity|].
  destruct (id r =? sid)%Z; [discriminate|].
  intros H. now rewrite IH.
Qed.

(** C8, as the code has it.  In a store that meets its primary key,
    [store_result] rewrites the score of every row whose id is the given
    one to the bound value (a NaN is bound as an absent score) and leaves
    every other row as it is; at most one row has that id; and when no row
    has it the store is unchanged and no error is reported. *)
Theorem store_result_updates_by_id (db : database) (sid : Z) (p : pyfloat) :
  primary_key db ->
  Forall2 (row_after_update sid (bind_float p))
    (sentences db) (sentences (fst (store_result sid p db)))
  /\ sequence (fst (store_result sid p db)) = sequence db
  /\ (count_id sid db <= 1)%nat
  /\ (count_id sid db = 0%nat -> store_result sid p db = (db, [])).
Proof.
  intros Hkey. rewrite store_result_rows. cbn [fst sentences sequence].
  split; [|split; [reflexivity|split]].
  - induction (sentences db) as [|r rows IH]; cbn; constructor;
      [|exact IH].
    unfold row_after_update. destruct (id r =? sid)%Z; reflexivity.
  - now apply primary_key_count.
  - unfold count_id. intros Hnone. apply length_zero_iff_nil in Hnone.
    rewrite update_absent by exact Hnone. now destruct db.
Qed.

(** *** The pending list and the batch run *)

Local Abbreviation pending_row :=
  (fun r : sentence_row => where_ (is_null (perplexity r))).
Local Abbreviation id_leb :=
  (fun a b : sentence_row => (id a <=? id b)%Z).
Local Abbreviation other_than sid :=
  (fun r : sentence_row => negb (id r =? sid)%Z).

Lemma pending_after_update (sid : Z) (x : pyfloat) (rows : list sentence_row) :
  filter pending_row
    (map (fun r => if (id r =? sid)%Z
                   then mk_row (id r) (text r) (Some x) (created_at r)
                   else r) rows)
  = filter (other_than sid) (filter pending_row rows).
Proof.
  induction rows as [|r rows IH]; [reflexivity|]. cbn [map filter].
  destruct (id r =? sid)%Z eqn:E.
  - cbn [perplexity is_null where_]. rewrite IH.
    destruct (pending_row r); [|reflexivity].
    cbn [filter]. now rewrite E.
  - rewrite IH. destruct (pending_row r); [|reflexivity].
    cbn [filter]. now rewrite E.
Qed.

Lemma bind_float_not_nan (p : pyfloat) : p <> NaN -> bind_float p = Some p.
Proof. destruct p; try reflexivity. congruence. Qed.

Lemma get_pending_after_store (sid : Z) (p : pyfloat) (db : database) :
  p <> NaN ->
  get_pending_sentences (fst (store_result sid p db))
  = map (fun r => (id r, text r))
      (filter (other_than sid)
         (order_by id_leb (filter pending_row (sentences db)))).
Proof.
  intros Hp. rewrite store_result_rows, (bind_float_not_nan p Hp).
  unfold get_pending_sentences. cbn [fst sentences].
  rewrite pending_after_update, filter_order_by; [reflexivity| |].
  - intros a b. destruct (Z.leb_spec (id a) (id b)); [now left|].
    right. apply Z.leb_le. lia.
  - intros a b c Hab Hbc. apply Z.leb_le in Hab, Hbc. apply Z.leb_le. lia.
Qed.

Lemma NoDup_map_filter {B : Type} (f : sentence_row -> B)
  (q : sentence_row -> bool) (rows : list sentence_row) :
  NoDup (map f rows) -> NoDup (map f (filter q rows)).
Proof.
  induction rows as [|r rows IH]; cbn; intros Hnd; [constructor|].
  inversion Hnd as [|? ? Hnotin Hnd']; subst.
  destruct (q r); [|now apply IH].
  cbn. constructor; [|now apply IH].
  intros Hin. apply Hnotin. apply in_map_iff in Hin as (r' & E & Hin).
  apply filter_In in Hin as [Hin _]. rewrite <- E. now apply in_map.
Qed.

Lemma pending_rows_nodup (db : database) :
  primary_key db ->
  NoDup (map id (order_by id_leb (filter pending_row (sentences db)))).
Proof.
  intros Hkey.
  apply (Permutation_NoDup (l := map id (filter pending_row (sentences db)))).
  - apply Permutation_map. symmetry. apply order_by_perm.
  - now apply NoDup_map_filter.
Qed.

Lemma pending_ids (db : database) :
  map fst (get_pending_sentences db)
  = map id (order_by id_leb (filter pending_row (sentences db))).
Proof. unfold get_pending_sentences. now rewrite map_map. Qed.

Lemma pending_ids_nodup (db : database) :
  primary_key db -> NoDup (map fst (get_pending_sentences db)).
Proof. intros Hkey. rewrite pending_ids. now apply pending_rows_nodup. Qed.

Lemma filter_other_than_head (r0 : sentence_row) (rest : list sentence_row) :
  NoDup (map id (r0 :: rest)) ->
  filter (other_than (id r0)) (r0 :: rest) = rest.
Proof.
  intros Hnd. inversion Hnd as [|? ? Hnotin _]; subst.
  cbn [filter]. rewrite Z.eqb_refl. cbn [negb].
  clear Hnd. induction rest as [|r rest IH]; [reflexivity|].
  cbn [filter]. destruct (id r =? id r0)%Z eqn:E.
  - apply Z.eqb_eq in E. exfalso. apply Hnotin. left. exact E.
  - cbn [negb]. f_equal. apply IH. intros Hin. apply Hnotin. now right.
Qed.

(** Storing a score for the head of the pending list leaves its tail. *)
Lemma pending_tail (db : database) (sid : Z) (t : string)
  (tail : list (Z * string)) (p : pyfloat) :
  primary_key db -> p <> NaN ->
  get_pending_sentences db = (sid, t) :: tail ->
  get_pending_sentences (fst (store_result sid p db)) = tail.
Proof.
  intros Hkey Hp Hpending. rewrite get_pending_after_store by exact Hp.
  pose proof (pending_rows_nodup db Hkey) as Hnd.
  unfold get_pending_sentences in Hpending.
  destruct (order_by id_leb (filter pending_row (sentences db)))
    as [|r0 rest]; [discriminate|].
  cbn [map] in Hpending. injection Hpending as Hid _ Htail. subst sid.
  now rewrite filter_other_than_head.
Qed.

Lemma primary_key_store_result (sid : Z) (p : pyfloat) (db : database) :
  primary_key db -> primary_key (fst (store_result sid p db)).
Proof.
  unfold primary_key. rewrite store_result_rows. cbn [fst sentences].
  rewrite map_map.
  erewrite map_ext; [intros H; exact H|].
  intros r. cbn. destruct (id r =? sid)%Z; reflexivity.
Qed.

Lemma stored_score_other (j sid : Z) (p : pyfloat) (db : database) :
  j <> sid ->
  stored_score j (fst (store_result sid p db)) = stored_score j db.
Proof.
  intros Hj. unfold stored_score. rewrite store_result_rows.
  cbn [fst sentences].
  induction (sentences db) as [|r rows IH]; [reflexivity|].
  cbn [map find]. destruct (id r =? sid)%Z eqn:E; cbn [id].
  - apply Z.eqb_eq in E.
    replace (id r =? j)%Z with false by (symmetry; apply Z.eqb_neq; lia).
    exact IH.
  - destruct (id r =? j)%Z; [reflexivity|exact IH].
Qed.

Lemma stored_score_same (sid : Z) (p : pyfloat) (db : database) :
  In sid (map id (sentences db)) ->
  stored_score sid (fst (store_result sid p db)) = bind_float p.
Proof.
  unfold stored_score. rewrite store_result_rows. cbn [fst sentences].
  induction (sentences db) as [|r rows IH]; cbn [map In find]; [tauto|].
  intros Hin. destruct (id r =? sid)%Z eqn:E; cbn [id].
  - now rewrite E.
  - rewrite E. apply IH. destruct Hin as [Hr|Hin]; [|exact Hin].
    apply Z.eqb_neq in E. congruence.
Qed.

Lemma pending_id_in_store (db : database) (sid : Z) :
  In sid (map fst (get_pending_sentences db)) ->
  In sid (map id (sentences db)).
Proof.
  rewrite pending_ids. intros Hin.
  apply in_map_iff in Hin as (r & E & Hin).
  apply (Permutation_in _ (order_by_perm id_leb _)) in Hin.
  apply filter_In in Hin as [Hin _]. rewrite <- E. now apply in_map.
Qed.

End StoreFacts.

(* ------------------------------------------------------------------ *)
(** * The batch run *)

Section BatchFacts.
Import Sqlite BatchProcessor StoreSpec.

Variable encode : string -> exc (list Z).
Variable target_prob : list Z -> Z -> exc pyfloat.

Local Abbreviation step := (score_and_store encode target_prob).

(** Working through a prefix of the pending list: the rest stays pending,
    the prefix is what was scored, scores outside the prefix are untouched
    and every record of the prefix now has a score. *)
Lemma run_prefix (work : list (Z * string)) :
  forall (db : database) (scored : list Z) (tail : list (Z * string)),
    primary_key db ->
    get_pending_sentences db = work ++ tail ->
    primary_key (fst (fold_left step work (db, scored)))
    /\ get_pending_sentences (fst (fold_left step work (db, scored))) = tail
    /\ snd (fold_left step work (db, scored)) = scored ++ map fst work
    /\ (forall j, ~ In j (map fst work) ->
          stored_score j (fst (fold_left step work (db, scored)))
          = stored_score j db)
    /\ (forall j, In j (map fst work) ->
          stored_score j (fst (fold_left step work (db, scored))) <> None).
Proof.
  induction work as [|[sid t] work IH]; intros db scored tail Hkey Hpending.
  - cbn. rewrite app_nil_r. repeat split; tauto.
  - cbn [fold_left].
    change (step (db, scored) (sid, t))
      with (fst (store_result sid
                   (calculate_perplexity encode target_prob t) db),
            scored ++ [sid]).
    set (p := calculate_perplexity encode target_prob t).
    assert (Hp : p <> NaN) by apply calculate_perplexity_not_nan.
    set (db1 := fst (store_result sid p db)).
    assert (Hnd : NoDup (map fst (((sid, t) :: work) ++ tail)))
      by (rewrite <- Hpending; now apply pending_ids_nodup).
    cbn [app map fst] in Hnd. inversion Hnd as [|? ? Hfresh _]; subst.
    rewrite map_app, in_app_iff in Hfresh.
    assert (Hin : In sid (map id (sentences db))).
    { apply pending_id_in_store. rewrite Hpending. now left. }
    destruct (IH db1 (scored ++ [sid]) tail) as (K1 & K2 & K3 & K4 & K5).
    + now apply primary_key_store_result.
    + apply (pending_tail db sid t); assumption.
    + split; [exact K1|]. split; [exact K2|]. split; [|split].
      * rewrite K3. cbn [map fst]. now rewrite <- app_assoc.
      * intros j Hj. cbn [map fst In] in Hj.
        rewrite K4 by tauto. apply stored_score_other. intros ->. tauto.
      * intros j Hj. cbn [map fst In] in Hj.
        destruct (Z.eq_dec j sid) as [->|Hne].
        -- rewrite K4 by tauto. unfold db1.
           rewrite stored_score_same by exact Hin.
           now rewrite bind_float_not_nan.
        -- apply K5. destruct Hj as [Hj|Hj]; [congruence|exact Hj].
Qed.




End BatchFacts.

(* ------------------------------------------------------------------ *)
(** * Statistics and ranking views *)

Section RankingFacts.
Import Sqlite BatchProcessor Extractor RankingSpec Samples.

(** The text ['inf'] is no number, so it stays text under NUMERIC
    affinity, and every REAL is below it. *)
Lemma inf_is_text : numeric_affinity (SqlText "inf") = SqlText "inf".
Proof. reflexivity. Qed.

Lemma scored_not_inf_scored (r : sentence_row) :
  where_ (scored_not_inf r)
  = match perplexity r with Some _ => true | None => false end.
Proof.
  unfold scored_not_inf, sql_ne, compare_real_column.
  rewrite inf_is_text. now destruct (perplexity r).
Qed.

Lemma never_equal_inf (r : sentence_row) :
  where_ (sql_eq (perplexity r) (SqlText "inf")) = false.
Proof.
  unfold sql_eq, compare_real_column.
  rewrite inf_is_text. now destruct (perplexity r).
Qed.

Lemma infinite_count_zero (db : database) :
  infinite_count (get_statistics db) = 0%Z.
Proof.
  unfold get_statistics, count_where. cbn [infinite_count].
  induction (sentences db) as [|r rows IH]; [reflexivity|].
  cbn [filter]. now rewrite never_equal_inf.
Qed.

(** C3, at the store A: 5.0, B: infinite, C: not scored.  The counts are
    total 3, processed 2, remaining 1, but the infinite score of B enters
    the aggregates (average and maximum are infinite) and the count of
    infinite scores is 0. *)
Theorem statistics_keep_infinite :
  get_statistics store_A5_Binf_C
  = mk_stats 3 2 1 (Some PInf) (Some (Fin 5)) (Some PInf) 0
  /\ print_statistics store_A5_Binf_C
  = mk_statistics 3 2 1 (Some PInf) (Some (Fin 5)) (Some PInf).
Proof. split; reflexivity. Qed.

(** C4, at the store A: 5.0, B: infinite.  The two highest are B then A,
    as claimed; the two lowest are A then B, so the infinite score of B is
    not kept out of the bottom view. *)
Theorem bottom_keeps_infinite :
  get_top_perplexity_sentences 2 store_A5_Binf
  = [("B"%string, Some PInf); ("A"%string, Some (Fin 5))]
  /\ get_bottom_perplexity_sentences 2 store_A5_Binf
  = [("A"%string, Some (Fin 5)); ("B"%string, Some PInf)].
Proof. split; reflexivity. Qed.

(** C6, at the store holding "Hello World" with score 5.0.  The keyword
    "hello" does not occur in the text with that letter case, and the
    case-sensitive search returns the record all the same. *)
Theorem case_sensitive_search_ignores_case :
  contains "hello" "Hello World" = false
  /\ search_sentences "hello" true store_hello
     = [("Hello World"%string, Some (Fin 5))].
Proof. split; reflexivity. Qed.

Lemma lt_asym (x y : pyfloat) : Py.lt x y = true -> Py.lt y x = false.
Proof.
  destruct x as [a| | |], y as [b| | |]; cbn; try congruence.
  destruct (Rlt_dec a b), (Rlt_dec b a); try congruence. lra.
Qed.

Lemma order_leb_total (u v : option pyfloat) :
  order_leb u v = true \/ order_leb v u = true.
Proof.
  destruct u as [x|], v as [y|]; cbn; auto.
  destruct (Py.lt y x) eqn:E; [|now left].
  right. now rewrite (lt_asym y x E).
Qed.

Lemma firstn_In_sub {B : Type} (k : nat) (l : list B) (x : B) :
  In x (firstn k l) -> In x l.
Proof.
  revert l. induction k as [|k IH]; intros [|a l]; cbn; try tauto.
  intros [->|Hin]; [now left|right; now apply IH].
Qed.

(** *** The views by perplexity *)

Local Abbreviation is_scored :=
  (fun r : sentence_row =>
     match perplexity r with Some _ => true | None => false end).

(** The top view is the head of a descending ranking of the scored rows;
    an infinite score ranks above every finite one. *)
Lemma top_is_descending_prefix (db : database) (k : Z) :
  (0 <= k)%Z ->
  exists ranked : list sentence_row,
    Permutation ranked (filter is_scored (sentences db))
    /\ Sorted (le_of perplexity_desc) ranked
    /\ get_top_perplexity_sentences k db
       = map text_perplexity (firstn (Z.to_nat k) ranked).
Proof.
  intros Hk.
  exists (order_by perplexity_desc (filter is_scored (sentences db))).
  split; [apply order_by_perm|]. split.
  - apply order_by_sorted. intros a b. apply order_leb_total.
  - unfold get_top_perplexity_sentences, get_sentences_by_perplexity, limit.
    replace (k <? 0)%Z with false by (symmetry; apply Z.ltb_ge; lia).
    do 3 f_equal. apply filter_ext. intros r. now destruct (perplexity r).
Qed.

(** The bottom view is the head of an ascending ranking of all the scored
    rows, the infinite ones included. *)
Lemma bottom_is_ascending_prefix (db : database) (k : Z) :
  (0 <= k)%Z ->
  exists ranked : list sentence_row,
    Permutation ranked (filter is_scored (sentences db))
    /\ Sorted (le_of perplexity_asc) ranked
    /\ get_bottom_perplexity_sentences k db
       = map text_perplexity (firstn (Z.to_nat k) ranked).
Proof.
  intros Hk.
  exists (order_by perplexity_asc (filter is_scored (sentences db))).
  split; [apply order_by_perm|]. split.
  - apply order_by_sorted. intros a b. apply order_leb_total.
  - unfold get_bottom_perplexity_sentences, limit.
    replace (k <? 0)%Z with false by (symmetry; apply Z.ltb_ge; lia).
    do 3 f_equal. apply filter_ext. intros r. apply scored_not_inf_scored.
Qed.

(** *** The complexity ranking *)



Lemma Sorted_impl_Forall {B : Type} (R1 R2 : B -> B -> Prop)
  (Q : B -> Prop) (l : list B) :
  (forall a b, Q a -> Q b -> R1 a b -> R2 a b) ->
  Forall Q l -> Sorted R1 l -> Sorted R2 l.
Proof.
  intros Himp HQ Hs. induction Hs as [|a l Hs IH Hhd]; [constructor|].
  inversion HQ as [|? ? Qa Ql]; subst.
  constructor; [now apply IH|].
  destruct Hhd as [|b l' Hab]; constructor.
  inversion Ql; subst. now apply Himp.
Qed.



End RankingFacts.

(* ------------------------------------------------------------------ *)
(** * Export *)

Section ExportFacts.
Import Sqlite BatchProcessor Extractor Samples.

Variable float_str : pyfloat -> string.
Variable float_2f : pyfloat -> string.
Variable json_dump : list scored -> string.

(** Whatever view the options select, the file holds the full descending
    listing. *)
Lemma main_saves_full_listing (args : arguments) (db : database)
  (path : string) :
  stats_only args = false ->
  output args = Some path ->
  snd (main float_str float_2f json_dump args db)
  = Saved path (export_to_text float_str float_2f json_dump (format args) db).
Proof.
  intros Hstats Hout. unfold main. now rewrite Hstats, Hout.
Qed.

(** C9, at the store A: 5.0, B: infinite with the options
    [--bottom 1 --output out.csv --format csv].  The selected view is the
    single pair for A, and the file written holds B and then A. *)
Theorem export_ignores_selected_view :
  selected_view bottom_1_csv store_A5_Binf
  = Pairs [("A"%string, Some (Fin 5))]
  /\ snd (main float_str float_2f json_dump bottom_1_csv store_A5_Binf)
     = Saved "out.csv"
         ("sentence,perplexity" ++ newline
          ++ (quote ++ "B" ++ quote ++ "," ++ float_str PInf ++ newline)
          ++ (quote ++ "A" ++ quote ++ "," ++ float_str (Fin 5) ++ newline))%string.
Proof. split; reflexivity. Qed.

End ExportFacts.

(* ------------------------------------------------------------------ *)
(** * Instances *)

Section Instances.
Import Sqlite BatchProcessor Extractor StoreSpec RankingSpec Samples.

Lemma store_pending_primary_key : primary_key store_pending.
Proof.
  unfold primary_key. cbn.
  repeat constructor; cbn; intuition discriminate.
Qed.

Lemma store_pending_unique_text : unique_text store_pending.
Proof.
  unfold unique_text. cbn.
  repeat constructor; cbn; intuition discriminate.
Qed.

(** C8, as stated, fails: on the empty store no record has id 1, and
    [store_result] reports nothing. *)
Lemma store_result_silent_when_absent : ~ fails_when_absent.
Proof.
  intros H. apply (H empty_database 1%Z (Fin 5)); reflexivity.
Qed.

End Instances.


(** Setting the score of record 2 of the sample store. *)
Lemma store_result_updates_by_id_witness :
  let db := Samples.store_pending in
  Forall2 (StoreSpec.row_after_update 2 (Sqlite.bind_float (Fin 5)))
    (BatchProcessor.sentences db)
    (BatchProcessor.sentences (fst (BatchProcessor.store_result 2 (Fin 5) db)))
  /\ BatchProcessor.sequence (fst (BatchProcessor.store_result 2 (Fin 5) db))
     = BatchProcessor.sequence db
  /\ (StoreSpec.count_id 2 db <= 1)%nat
  /\ (StoreSpec.count_id 2 db = 0%nat ->
      BatchProcessor.store_result 2 (Fin 5) db = (db, [])).
Proof.
  exact (store_result_updates_by_id Samples.store_pending 2 (Fin 5)
           store_pending_primary_key).
Defined.



(* ------------------------------------------------------------------ *)
(** * Text: stripping and splitting *)

Section TextFacts.
Import TextSpec.

Lemma take_drop_while (p : ascii -> bool) (s : list ascii) :
  s = take_while p s ++ drop_while p s.
Proof.
  induction s as [|c s IH]; [reflexivity|]. cbn.
  destruct (p c); [cbn; now f_equal|reflexivity].
Qed.

Lemma take_while_all (p : ascii -> bool) (s : list ascii) :
  Forall (fun c => p c = true) (take_while p s).
Proof.
  induction s as [|c s IH]; cbn; [constructor|].
  destruct (p c) eqn:E; constructor; assumption.
Qed.

Lemma drop_while_head (p : ascii -> bool) (s : list ascii) (c : ascii) :
  hd_error (drop_while p s) = Some c -> p c = false.
Proof.
  induction s as [|d s IH]; cbn; [discriminate|].
  destruct (p d) eqn:E; [exact IH|]. cbn. now intros [= <-].
Qed.

Lemma drop_while_fixed (p : ascii -> bool) (s : list ascii) :
  (forall c, hd_error s = Some c -> p c = false) -> drop_while p s = s.
Proof.
  destruct s as [|c s]; [reflexivity|]. cbn. intros H.
  now rewrite (H c eq_refl).
Qed.


(** What [strip] removes: whitespace before and whitespace after. *)
Lemma strip_chars_split (s : list ascii) :
  exists l r,
    s = l ++ strip_chars s ++ r
    /\ Forall (fun c => isspace c = true) l
    /\ Forall (fun c => isspace c = true) r.
Proof.
  exists (take_while isspace s),
         (rev (take_while isspace (rev (drop_while isspace s)))).
  split; [|split].
  - unfold strip_chars. rewrite <- rev_app_distr, <- take_drop_while,
      rev_involutive. apply take_drop_while.
  - apply take_while_all.
  - apply Forall_rev, take_while_all.
Qed.

Lemma strip_chars_last (s : list ascii) (c : ascii) :
  hd_error (rev (strip_chars s)) = Some c -> isspace c = false.
Proof.
  unfold strip_chars. rewrite rev_involutive. apply drop_while_head.
Qed.

Lemma strip_chars_first (s : list ascii) (c : ascii) :
  hd_error (strip_chars s) = Some c -> isspace c = false.
Proof.
  intros H. apply (drop_while_head isspace s).
  unfold strip_chars in H.
  pose proof (take_drop_while isspace (rev (drop_while isspace s))) as E.
  apply (f_equal (@rev ascii)) in E.
  rewrite rev_involutive, rev_app_distr in E. rewrite E.
  destruct (rev (drop_while isspace (rev (drop_while isspace s))));
    [discriminate|exact H].
Qed.

Lemma strip_chars_idempotent (s : list ascii) :
  strip_chars (strip_chars s) = strip_chars s.
Proof.
  unfold strip_chars at 1.
  rewrite (drop_while_fixed isspace (strip_chars s))
    by apply strip_chars_first.
  rewrite (drop_while_fixed isspace (rev (strip_chars s)))
    by apply strip_chars_last.
  apply rev_involutive.
Qed.

Lemma chars_strip (s : string) : chars (strip s) = strip_chars (chars s).
Proof. apply list_ascii_of_string_of_list_ascii. Qed.

Lemma strip_idempotent (s : string) : strip (strip s) = strip s.
Proof.
  unfold strip at 1. fold (chars (strip s)).
  now rewrite chars_strip, strip_chars_idempotent.
Qed.

Lemma strip_clean_edges (s : string) : clean_edges (strip s).
Proof.
  unfold clean_edges. rewrite chars_strip. split.
  - apply strip_chars_first.
  - apply strip_chars_last.
Qed.

(** *** The matches of [sentence_endings] *)











(** *** The sentences *)


Lemma simple_sentence_is_stripped_piece (text s : string) :
  In s (PhraseSorter.split_into_sentences text) ->
  exists piece,
    In piece (re_split_endings (strip text))
    /\ s = strip piece /\ s <> EmptyString.
Proof.
  unfold PhraseSorter.split_into_sentences. intros H.
  apply in_map_iff in H as (piece & <- & H).
  apply filter_In in H as [Hin Hne].
  exists piece. split; [exact Hin|]. split; [reflexivity|].
  apply negb_true_iff, String.eqb_neq in Hne. exact Hne.
Qed.

Lemma filter_map_commute {A B : Type} (h : A -> B) (g : B -> bool)
  (l : list A) :
  filter g (map h l) = map h (filter (fun x => g (h x)) l).
Proof.
  induction l as [|x l IH]; [reflexivity|]. cbn.
  destruct (g (h x)); cbn; now rewrite IH.
Qed.

Lemma filter_andb {A : Type} (f g : A -> bool) (l : list A) :
  filter (fun x => f x && g x) l = filter g (filter f l).
Proof.
  induction l as [|x l IH]; [reflexivity|]. cbn.
  destruct (f x); cbn; [destruct (g x)|]; now rewrite IH.
Qed.

Lemma strict_split_filter (text : string) :
  BatchProcessor.split_into_sentences text
  = filter (fun s => (5 <? String.length s)%nat)
      (PhraseSorter.split_into_sentences text).
Proof.
  unfold BatchProcessor.split_into_sentences,
    PhraseSorter.split_into_sentences.
  now rewrite filter_map_commute, <- filter_andb.
Qed.

(** X2.  The sentences the batch processor keeps are those of the simple
    calculator that have more than five characters, in the same order. *)
Theorem strict_split_is_filtered_split (text : string) :
  BatchProcessor.split_into_sentences text
  = filter (fun s => (5 <? String.length s)%nat)
      (PhraseSorter.split_into_sentences text).
Proof.
  unfold BatchProcessor.split_into_sentences,
    PhraseSorter.split_into_sentences.
  rewrite filter_map_commute. f_equal.
  exact (filter_andb (fun s => negb (String.eqb (strip s) ""))
           (fun s => (5 <? String.length (strip s))%nat) _).
Qed.

(** X1.  Every sentence returned by either [split_into_sentences] is not
    empty and neither begins nor ends with whitespace; those of the batch
    processor have more than five characters. *)
Theorem split_sentences_are_trimmed (text s : string) :
  (In s (PhraseSorter.split_into_sentences text) ->
     s <> EmptyString /\ clean_edges s)
  /\ (In s (BatchProcessor.split_into_sentences text) ->
     (5 < String.length s)%nat /\ s <> EmptyString /\ clean_edges s).
Proof.
  assert (Hsimple : In s (PhraseSorter.split_into_sentences text) ->
                    s <> EmptyString /\ clean_edges s).
  { intros H.
    apply simple_sentence_is_stripped_piece in H as (piece & _ & -> & Hne).
    split; [exact Hne|apply strip_clean_edges]. }
  split; [exact Hsimple|].
  rewrite strict_split_filter. intros H.
  apply filter_In in H as [Hin Hlen]. apply Nat.ltb_lt in Hlen.
  destruct (Hsimple Hin). tauto.
Qed.


Lemma search_endings_no_ending (l : list ascii) :
  Forall (fun c => is_ending c = false) l -> search_endings l = None.
Proof.
  induction 1 as [|c l Hc Hl IH]; [reflexivity|].
  cbn [search_endings]. unfold match_endings. cbn [take_while].
  now rewrite Hc, IH.
Qed.

Lemma no_ending_strip (text : string) :
  no_ending text -> no_ending (strip text).
Proof.
  unfold no_ending. rewrite chars_strip. intros H.
  destruct (strip_chars_split (chars text)) as (l & r & E & _ & _).
  rewrite E in H. apply Forall_app in H as [_ H].
  now apply Forall_app in H as [H _].
Qed.

(** X4.  A text without '.', '!' and '?' is one sentence, the stripped
    text, or none when the text is blank. *)
Theorem split_without_endings (text : string) :
  no_ending text ->
  PhraseSorter.split_into_sentences text
  = if String.eqb (strip text) "" then [] else [strip text].
Proof.
  intros H. apply no_ending_strip in H.
  unfold PhraseSorter.split_into_sentences, re_split_endings.
  assert (E : split_rounds (List.length (list_ascii_of_string (strip text)))
                (list_ascii_of_string (strip text))
              = [list_ascii_of_string (strip text)]).
  { destruct (List.length (list_ascii_of_string (strip text)));
      cbn [split_rounds]; [reflexivity|].
    now rewrite search_endings_no_ending. }
  rewrite E. cbn [map filter].
  rewrite string_of_list_ascii_of_string, strip_idempotent.
  destruct (String.eqb (strip text) ""); cbn [negb map];
    [reflexivity|now rewrite strip_idempotent].
Qed.

End TextFacts.

(* ------------------------------------------------------------------ *)
(** * The ranking of the simple calculator *)

Section SimpleRanking.
Import TextSpec ScorerSpec.

Variable encode : string -> exc (list Z).
Variable target_prob : list Z -> Z -> exc pyfloat.

Lemma sorted_is_order_by {A : Type} (before : A -> A -> bool) (l : list A) :
  sorted before l = Sqlite.order_by before l.
Proof. reflexivity. Qed.

Lemma float_le_trans (a b c : pyfloat) :
  float_le a b -> float_le b c -> float_le a c.
Proof.
  destruct a, b, c; cbn; try tauto. lra.
Qed.

Lemma not_lt_float_le (a b : pyfloat) :
  a <> NaN -> b <> NaN -> Py.lt a b = false -> float_le b a.
Proof.
  destruct a as [x| | |], b as [y| | |]; cbn; try congruence; try tauto.
  destruct (Rlt_dec x y); [discriminate|]. intros _ _ _. lra.
Qed.

Lemma strictly_positive_not_nan (v : pyfloat) : strictly_positive v -> v <> NaN.
Proof. intros [->|(r & -> & _)]; discriminate. Qed.

(** Sorting scores that are free of NaN gives a descending permutation. *)
Lemma sort_by_perplexity_descending (l : list (string * pyfloat)) :
  Forall (fun x => snd x <> NaN) l ->
  Permutation (PhraseSorter.sort_by_perplexity l) l
  /\ StronglySorted (fun x y => float_le (snd y) (snd x))
       (PhraseSorter.sort_by_perplexity l).
Proof.
  intros Hnan. unfold PhraseSorter.sort_by_perplexity.
  rewrite sorted_is_order_by.
  split; [apply order_by_perm|].
  apply Sorted_StronglySorted.
  { intros x y z Hxy Hyz. exact (float_le_trans _ _ _ Hyz Hxy). }
  apply (Sorted_impl_Forall
           (Sqlite.le_of (fun x y => negb (Py.lt (snd x) (snd y)))) _
           (fun x : string * pyfloat => snd x <> NaN)).
  - intros x y Hx Hy H. unfold Sqlite.le_of in H.
    apply negb_true_iff in H. now apply not_lt_float_le.
  - rewrite Forall_forall in *. intros x Hin. apply Hnan.
    exact (Permutation_in _ (order_by_perm _ l) Hin).
  - apply order_by_sorted. intros x y.
    destruct (Py.lt (snd x) (snd y)) eqn:E; [|now left].
    right. now rewrite (lt_asym _ _ E).
Qed.

(** X5.  The ranking the simple calculator prints: it is a rearrangement
    of the sentences of the text, each with the score of the scorer, in
    descending order of score, and every score is strictly positive. *)
Theorem simple_ranking_sorted (text : string) :
  let ranking :=
    PhraseSorter.sort_by_perplexity
      (PhraseSorter.process_text encode target_prob text) in
  Permutation (map fst ranking) (PhraseSorter.split_into_sentences text)
  /\ StronglySorted (fun x y => float_le (snd y) (snd x)) ranking
  /\ Forall (fun x =>
       snd x = PhraseSorter.calculate_perplexity_simple encode target_prob
                 (fst x)
       /\ strictly_positive (snd x)) ranking.
Proof.
  intros ranking.
  assert (Hscores : Forall (fun x : string * pyfloat =>
       snd x = PhraseSorter.calculate_perplexity_simple encode target_prob
                 (fst x)
       /\ strictly_positive (snd x))
       (PhraseSorter.process_text encode target_prob text)).
  { unfold PhraseSorter.process_text. apply Forall_map, Forall_forall.
    intros s _. cbn [fst snd]. split; [reflexivity|].
    apply calculate_perplexity_positive. }
  destruct (sort_by_perplexity_descending
              (PhraseSorter.process_text encode target_prob text))
    as [Hperm Hsorted].
  { eapply Forall_impl; [|exact Hscores]. intros x [_ Hx].
    now apply strictly_positive_not_nan. }
  fold ranking in Hperm, Hsorted. split; [|split; [exact Hsorted|]].
  - rewrite Hperm. unfold PhraseSorter.process_text.
    rewrite map_map. cbn [fst]. now rewrite map_id.
  - rewrite Forall_forall in *. intros x Hin. apply Hscores.
    now apply (Permutation_in _ Hperm).
Qed.

End SimpleRanking.

(* ------------------------------------------------------------------ *)
(** * Storing sentences *)

Section StoreSentencesFacts.
Import Sqlite BatchProcessor StoreSpec.

Lemma store_sentences_cons (now : Z) (t : string) (l : list string)
  (db : database) :
  store_sentences now (t :: l) db
  = store_sentences now l (fst (store_sentences now [t] db)).
Proof.
  unfold store_sentences at 1. cbn [fold_left].
  change (store_sentence now (db, []) t) with (store_sentences now [t] db).
  rewrite (surjective_pairing (store_sentences now [t] db)) at 1.
  now rewrite store_one_sentence_no_error.
Qed.

Lemma max_rowid_cons (a : sentence_row) (rows : list sentence_row) :
  max_rowid (a :: rows) = Z.max (id a) (max_rowid rows).
Proof. reflexivity. Qed.

Lemma max_rowid_nonneg (rows : list sentence_row) : (0 <= max_rowid rows)%Z.
Proof.
  induction rows as [|a rows IH]; [reflexivity|].
  rewrite max_rowid_cons. lia.
Qed.

Lemma max_rowid_bound (rows : list sentence_row) (r : sentence_row) :
  In r rows -> (id r <= max_rowid rows)%Z.
Proof.
  induction rows as [|a rows IH]; [intros []|].
  rewrite max_rowid_cons. intros [->|Hin]; [lia|].
  specialize (IH Hin). lia.
Qed.

Lemma max_rowid_app (rows more : list sentence_row) :
  max_rowid (rows ++ more)
  = Z.max (max_rowid rows) (max_rowid more).
Proof.
  induction rows as [|a rows IH].
  - cbn [app]. change (max_rowid []) with 0%Z.
    pose proof (max_rowid_nonneg more). lia.
  - cbn [app]. rewrite !max_rowid_cons, IH. lia.
Qed.

Lemma existsb_text_present (t : string) (rows : list sentence_row) :
  existsb (fun r => String.eqb (text r) t) rows = true
  <-> In t (map text rows).
Proof.
  split.
  - intros H. apply existsb_exists in H as (r & Hin & E).
    apply String.eqb_eq in E. subst t. now apply in_map.
  - intros H. apply in_map_iff in H as (r & E & Hin).
    apply existsb_exists. exists r. split; [exact Hin|].
    now apply String.eqb_eq.
Qed.

Lemma appended_nothing (now : Z) (l : list string) (db : database) :
  appended now l db db [].
Proof.
  unfold appended. rewrite app_nil_r.
  split; [reflexivity|]. split; [constructor|]. split; [constructor|].
  split; [intros r []|]. split; [constructor|]. lia.
Qed.

(** One INSERT OR IGNORE. *)
Lemma store_one_appended (now : Z) (t : string) (db : database) :
  exists added,
    appended now [t] db (fst (store_sentences now [t] db)) added
    /\ In t (map text (sentences (fst (store_sentences now [t] db)))).
Proof.
  rewrite store_one_sentence.
  destruct (existsb _ (sentences db)) eqn:E; cbn [fst].
  - exists []. split.
    + apply appended_nothing.
    + now apply existsb_text_present.
  - eexists [_]. split.
    + unfold appended, high_water. cbn [sentences sequence].
      rewrite max_rowid_app. cbn [max_rowid fold_right id].
      split; [reflexivity|]. split; [|split; [|split; [|split]]].
      * constructor; [|constructor]. cbn.
        repeat split; try tauto; lia.
      * cbn. repeat constructor. tauto.
      * intros r [<-|[]]. cbn. now apply existsb_text_absent.
      * cbn. repeat constructor.
      * lia.
    + cbn [sentences]. rewrite map_app. apply in_or_app. right. now left.
Qed.

Lemma StronglySorted_app {B : Type} (R : B -> B -> Prop) (l1 l2 : list B) :
  StronglySorted R l1 -> StronglySorted R l2 ->
  (forall x y, In x l1 -> In y l2 -> R x y) ->
  StronglySorted R (l1 ++ l2).
Proof.
  induction l1 as [|a l1 IH]; intros S1 S2 H; [exact S2|].
  inversion S1 as [|? ? S1' Ha]; subst. cbn. constructor.
  - apply IH; [exact S1'|exact S2|]. intros x y Hx Hy. apply H; [now right|exact Hy].
  - apply Forall_app. split; [exact Ha|].
    apply Forall_forall. intros y Hy. apply H; [now left|exact Hy].
Qed.

Lemma appended_compose (now : Z) (t : string) (l : list string)
  (db db1 db2 : database) (a1 a2 : list sentence_row) :
  appended now [t] db db1 a1 -> appended now l db1 db2 a2 ->
  appended now (t :: l) db db2 (a1 ++ a2).
Proof.
  intros (E1 & F1 & N1 & D1 & S1 & H1) (E2 & F2 & N2 & D2 & S2 & H2).
  rewrite Forall_forall in F1, F2.
  unfold appended. split; [|split; [|split; [|split; [|split]]]].
  - now rewrite E2, E1, app_assoc.
  - apply Forall_forall. intros r Hin. apply in_app_or in Hin as [Hin|Hin].
    + destruct (F1 r Hin) as (P & T & C & I).
      repeat split; try tauto; try lia.
      destruct T as [<-|[]]. now left.
    + destruct (F2 r Hin) as (P & T & C & I).
      repeat split; try tauto; try lia. now right.
  - rewrite map_app. apply NoDup_app; [exact N1|exact N2|].
    intros x Hx1 Hx2. apply in_map_iff in Hx2 as (r & <- & Hr).
    apply (D2 r Hr). rewrite E1, map_app. apply in_or_app. now right.
  - intros r Hin Hold. apply in_app_or in Hin as [Hin|Hin].
    + now apply (D1 r Hin).
    + apply (D2 r Hin). rewrite E1, map_app. apply in_or_app. now left.
  - rewrite map_app. apply StronglySorted_app; [exact S1|exact S2|].
    intros x y Hx Hy.
    apply in_map_iff in Hx as (r1 & <- & Hr1).
    apply in_map_iff in Hy as (r2 & <- & Hr2).
    specialize (F1 r1 Hr1). specialize (F2 r2 Hr2). lia.
  - lia.
Qed.

Lemma store_sentences_appended (now : Z) (l : list string) :
  forall db,
    exists added,
      appended now l db (fst (store_sentences now l db)) added
      /\ snd (store_sentences now l db) = []
      /\ forall t, In t l ->
           In t (map text (sentences (fst (store_sentences now l db)))).
Proof.
  induction l as [|t l IH]; intros db.
  - exists []. split; [apply appended_nothing|]. split; [reflexivity|].
    intros t [].
  - rewrite store_sentences_cons.
    destruct (store_one_appended now t db) as (a1 & A1 & P1).
    destruct (IH (fst (store_sentences now [t] db)))
      as (a2 & A2 & E2 & P2).
    exists (a1 ++ a2).
    split; [exact (appended_compose _ _ _ _ _ _ _ _ A1 A2)|].
    split; [exact E2|].
    intros u [<-|Hu]; [|now apply P2].
    destruct A2 as (E & _). rewrite E, map_app.
    apply in_or_app. now left.
Qed.

(** X6.  [store_sentences] only appends: the rows already there stay as
    they are and in place, no error is reported, and each appended row is
    unscored, carries one of the given texts that the store did not hold
    (each such text once), is stamped with the current time and gets an id
    above every id of the store, the new ids ascending. *)
Theorem store_sentences_only_appends (now : Z) (l : list string)
  (db : database) :
  exists added,
    appended now l db (fst (store_sentences now l db)) added
    /\ snd (store_sentences now l db) = [].
Proof.
  destruct (store_sentences_appended now l db) as (added & A & E & _).
  now exists added.
Qed.

Lemma strictly_ascending_nodup (l : list Z) :
  StronglySorted Z.lt l -> NoDup l.
Proof.
  induction 1 as [|a l S IH Ha]; constructor; [|exact IH].
  intros Hin. rewrite Forall_forall in Ha. specialize (Ha a Hin). lia.
Qed.

Lemma appended_ids_above (now : Z) (l : list string) (db db' : database)
  (added : list sentence_row) :
  appended now l db db' added ->
  forall x y, In x (map id (sentences db)) -> In y (map id added) ->
    (x < y)%Z.
Proof.
  intros (_ & F & _) x y Hx Hy. rewrite Forall_forall in F.
  apply in_map_iff in Hx as (r & <- & Hr).
  apply in_map_iff in Hy as (r' & <- & Hr').
  pose proof (max_rowid_bound _ _ Hr). specialize (F r' Hr').
  unfold high_water in F. lia.
Qed.


(** X7.  [store_sentences] keeps the constraints of the schema: in a store
    with distinct ids and distinct texts, ids and texts are distinct
    afterwards. *)
Theorem store_sentences_keeps_constraints (now : Z) (l : list string)
  (db : database) :
  primary_key db -> unique_text db ->
  primary_key (fst (store_sentences now l db))
  /\ unique_text (fst (store_sentences now l db)).
Proof.
  intros Hkey Htext.
  destruct (store_sentences_appended now l db) as (added & A & _ & _).
  pose proof (appended_ids_above _ _ _ _ _ A) as Habove.
  destruct A as (E & F & N & D & S & H).
  unfold primary_key, unique_text. rewrite E, !map_app. split.
  - apply NoDup_app; [exact Hkey|now apply strictly_ascending_nodup|].
    intros x Hx Hy. specialize (Habove x x Hx Hy). lia.
  - apply NoDup_app; [exact Htext|exact N|].
    intros x Hx Hy. apply in_map_iff in Hy as (r & <- & Hr).
    now apply (D r Hr).
Qed.

(** X8.  After [store_sentences] on a store with distinct texts, each of
    the given sentences is the text of exactly one record, however often
    it was given and whether or not it was stored before. *)
Theorem stored_sentences_occur_once (now : Z) (l : list string)
  (db : database) (t : string) :
  unique_text db -> In t l ->
  count_text t (fst (store_sentences now l db)) = 1%nat.
Proof.
  intros Htext Hin.
  destruct (store_sentences_appended now l db) as (added & A & _ & P).
  destruct A as (E & F & N & D & S & H).
  unfold count_text. apply unique_text_count.
  - rewrite E, map_app. apply NoDup_app; [exact Htext|exact N|].
    intros x Hx Hy. apply in_map_iff in Hy as (r & <- & Hr).
    now apply (D r Hr).
  - apply existsb_text_present. now apply P.
Qed.



Lemma order_by_of_sorted {B : Type} (leb : B -> B -> bool) (l : list B) :
  StronglySorted (le_of leb) l -> order_by leb l = l.
Proof.
  induction 1 as [|a l S IH Ha]; [reflexivity|].
  cbn [order_by fold_right]. fold (order_by leb l). rewrite IH.
  destruct l as [|b l']; [reflexivity|]. cbn [insert_sorted].
  inversion Ha as [|? ? Hab _]; subst. unfold le_of in Hab.
  now rewrite Hab.
Qed.

Lemma ascending_filter (q : sentence_row -> bool)
  (rows : list sentence_row) :
  StronglySorted Z.lt (map id rows) ->
  StronglySorted (le_of (fun a b => (id a <=? id b)%Z)) (filter q rows).
Proof.
  induction rows as [|r rows IH]; cbn; intros S; [constructor|].
  inversion S as [|? ? S' Hr]; subst.
  destruct (q r); [|now apply IH].
  constructor; [now apply IH|].
  apply Forall_forall. intros r' Hin. apply filter_In in Hin as [Hin _].
  rewrite Forall_forall in Hr. specialize (Hr (id r') (in_map id _ _ Hin)).
  unfold le_of. apply Z.leb_le. lia.
Qed.

(** X10.  Ids that ascend along the table stay so under
    [store_sentences] and [store_result], and in such a store the pending
    list is the unscored rows in table order, that is in the order of
    their insertion. *)
Theorem pending_in_insertion_order (now : Z) (l : list string)
  (sid : Z) (p : pyfloat) (db : database) :
  ascending_ids db ->
  ascending_ids (fst (store_sentences now l db))
  /\ ascending_ids (fst (store_result sid p db))
  /\ get_pending_sentences db
     = map (fun r => (id r, text r))
         (filter (fun r => match perplexity r with
                           | None => true
                           | Some _ => false
                           end) (sentences db)).
Proof.
  intros Hasc. split; [|split].
  - destruct (store_sentences_appended now l db) as (added & A & _ & _).
    pose proof (appended_ids_above _ _ _ _ _ A) as Habove.
    destruct A as (E & F & N & D & S & H).
    unfold ascending_ids. rewrite E, map_app.
    now apply StronglySorted_app.
  - unfold ascending_ids. rewrite store_result_rows. cbn [fst sentences].
    rewrite map_map. erewrite map_ext; [exact Hasc|].
    intros r. cbn. destruct (id r =? sid)%Z; reflexivity.
  - unfold get_pending_sentences.
    rewrite order_by_of_sorted by now apply ascending_filter.
    f_equal. apply filter_ext. intros r. now destruct (perplexity r).
Qed.

End StoreSentencesFacts.

(* ------------------------------------------------------------------ *)
(** * What a batch run does to the rows *)

Section RunFacts.
Import Sqlite BatchProcessor StoreSpec ScorerSpec.

Variable encode : string -> exc (list Z).
Variable target_prob : list Z -> Z -> exc pyfloat.

Local Abbreviation calc := (calculate_perplexity encode target_prob).
Local Abbreviation run_step := (score_and_store encode target_prob).

Lemma NoDup_map_injective {B C : Type} (f : B -> C) (l : list B) (a b : B) :
  NoDup (map f l) -> In a l -> In b l -> f a = f b -> a = b.
Proof.
  induction l as [|x l IH]; cbn; intros Hnd Ha Hb E; [tauto|].
  inversion Hnd as [|? ? Hx Hnd']; subst.
  destruct Ha as [->|Ha], Hb as [->|Hb]; try reflexivity.
  - exfalso. apply Hx. rewrite E. now apply in_map.
  - exfalso. apply Hx. rewrite <- E. now apply in_map.
  - now apply IH.
Qed.

(** The row behind the head of the pending list. *)
Lemma pending_head_row (db : database) (sid : Z) (t : string)
  (tail : list (Z * string)) (r : sentence_row) :
  primary_key db ->
  get_pending_sentences db = (sid, t) :: tail ->
  In r (sentences db) -> id r = sid ->
  perplexity r = None /\ text r = t.
Proof.
  intros Hkey Hpending Hin Hid. unfold get_pending_sentences in Hpending.
  destruct (order_by _ _) as [|r0 rest] eqn:O; [discriminate|].
  cbn [map] in Hpending. injection Hpending as Hid0 Ht _.
  assert (Hr0 : In r0 (filter (fun r => where_ (is_null (perplexity r)))
                         (sentences db))).
  { apply (Permutation_in _ (order_by_perm
             (fun a b => (id a <=? id b)%Z) _)).
    rewrite O. now left. }
  apply filter_In in Hr0 as [Hr0 Hnull].
  assert (r = r0).
  { apply (NoDup_map_injective id (sentences db)); try assumption.
    congruence. }
  subst r0. split; [|exact Ht].
  destruct (perplexity r); [discriminate|reflexivity].
Qed.

Lemma Forall2_map_in {B C : Type} (R : B -> C -> Prop) (f : B -> C)
  (l : list B) :
  (forall x, In x l -> R x (f x)) -> Forall2 R l (map f l).
Proof.
  induction l as [|x l IH]; cbn; intros H; constructor.
  - apply H. now left.
  - apply IH. intros y Hy. apply H. now right.
Qed.

Lemma Forall2_compose {B : Type} (R1 R2 R3 : B -> B -> Prop)
  (l1 l2 l3 : list B) :
  (forall a b c, R1 a b -> R2 b c -> R3 a c) ->
  Forall2 R1 l1 l2 -> Forall2 R2 l2 l3 -> Forall2 R3 l1 l3.
Proof.
  intros H F1. revert l3.
  induction F1 as [|a b l1 l2 Hab F1 IH]; intros l3 F2;
    inversion F2; subst; constructor; eauto.
Qed.

Lemma scored_by_one_step (db : database) (sid : Z) (t : string)
  (tail : list (Z * string)) :
  primary_key db ->
  get_pending_sentences db = (sid, t) :: tail ->
  Forall2 (scored_by calc [sid]) (sentences db)
    (sentences (fst (store_result sid (calc t) db))).
Proof.
  intros Hkey Hpending. rewrite store_result_rows. cbn [fst sentences].
  rewrite (bind_float_not_nan (calc t))
    by apply calculate_perplexity_not_nan.
  apply Forall2_map_in. intros r Hin. unfold scored_by.
  destruct (id r =? sid)%Z eqn:E.
  - apply Z.eqb_eq in E.
    destruct (pending_head_row db sid t tail r Hkey Hpending Hin E)
      as [Hnull Ht].
    cbn [id text created_at perplexity]. rewrite Hnull, Ht.
    repeat split; try reflexivity. intros Hno. exfalso. apply Hno. now left.
  - apply Z.eqb_neq in E. repeat split; try reflexivity.
    destruct (perplexity r); [reflexivity|]. split; [|reflexivity].
    intros [Hs|[]]. congruence.
Qed.

Lemma scored_by_compose (sid : Z) (ids : list Z) (a b c : sentence_row) :
  scored_by calc [sid] a b -> scored_by calc ids b c ->
  scored_by calc (sid :: ids) a c.
Proof.
  unfold scored_by. intros (I1 & T1 & C1 & P1) (I2 & T2 & C2 & P2).
  repeat split; try congruence.
  destruct (perplexity a) as [x|].
  - rewrite P1 in P2. exact P2.
  - destruct P1 as [Pin Pout].
    destruct (Z.eq_dec (id a) sid) as [E|E].
    + rewrite (Pin (or_introl (eq_sym E))) in P2. split; [|intros H].
      * intros _. exact P2.
      * exfalso. apply H. left. congruence.
    + rewrite Pout in P2 by (intros [H|[]]; congruence).
      rewrite I1, T1 in P2. destruct P2 as [Qin Qout]. split.
      * intros [H|H]; [congruence|now apply Qin].
      * intros H. apply Qout. intros H'. apply H. now right.
Qed.

Lemma scored_by_nothing (rows : list sentence_row) :
  Forall2 (scored_by calc []) rows rows.
Proof.
  induction rows as [|r rows IH]; constructor; [|exact IH].
  unfold scored_by. repeat split.
  destruct (perplexity r); [reflexivity|]. split; [intros []|reflexivity].
Qed.

Lemma run_rows (work : list (Z * string)) :
  forall (db : database) (scored : list Z) (tail : list (Z * string)),
    primary_key db ->
    get_pending_sentences db = work ++ tail ->
    Forall2 (scored_by calc (map fst work)) (sentences db)
      (sentences (fst (fold_left run_step work (db, scored))))
    /\ sequence (fst (fold_left run_step work (db, scored))) = sequence db.
Proof.
  induction work as [|[sid t] work IH]; intros db scored tail Hkey Hpending.
  - cbn. split; [apply scored_by_nothing|reflexivity].
  - cbn [fold_left].
    change (run_step (db, scored) (sid, t))
      with (fst (store_result sid (calc t) db), scored ++ [sid]).
    destruct (IH (fst (store_result sid (calc t) db)) (scored ++ [sid]) tail)
      as [F S].
    + now apply primary_key_store_result.
    + apply (pending_tail db sid t); try assumption.
      apply calculate_perplexity_not_nan.
    + split; [|now rewrite S, store_result_rows].
      cbn [map fst].
      eapply Forall2_compose;
        [apply scored_by_compose
        |apply (scored_by_one_step db sid t (work ++ tail)); assumption
        |exact F].
Qed.

Lemma process_batch_work (interrupt : option nat) (db : database) :
  exists work tail,
    get_pending_sentences db = work ++ tail
    /\ process_batch encode target_prob interrupt db
       = fold_left run_step work (db, [])
    /\ (interrupt = None -> tail = []).
Proof.
  destruct interrupt as [n|].
  - exists (firstn n (get_pending_sentences db)),
           (skipn n (get_pending_sentences db)).
    split; [now rewrite firstn_skipn|]. split; [reflexivity|discriminate].
  - exists (get_pending_sentences db), [].
    split; [now rewrite app_nil_r|]. split; reflexivity.
Qed.

Lemma run_touches_rows (interrupt : option nat) (db : database) :
  primary_key db ->
  let run := process_batch encode target_prob interrupt db in
  Forall2 (scored_by calc (snd run)) (sentences db) (sentences (fst run))
  /\ sequence (fst run) = sequence db.
Proof.
  intros Hkey run.
  destruct (process_batch_work interrupt db) as (work & tail & Hp & Hrun & _).
  unfold run. rewrite Hrun.
  destruct (run_rows work db [] tail Hkey Hp) as [F S].
  destruct (run_prefix encode target_prob work db [] tail Hkey Hp)
    as (_ & _ & K3 & _).
  rewrite K3. cbn [app]. split; assumption.
Qed.

(** X11.  Whether it runs to its end or is stopped, a batch run on a store
    with distinct ids changes neither the id, the text nor the time of any
    row, nor their number and order, nor the id counter; a score that was
    there stays as it is; each record the run scored holds the scorer's
    value for its own text; every other pending record stays pending. *)
Theorem run_touches_only_pending_scores (interrupt : option nat)
  (db : database) :
  primary_key db ->
  let run := process_batch encode target_prob interrupt db in
  Forall2 (scored_by calc (snd run)) (sentences db) (sentences (fst run))
  /\ sequence (fst run) = sequence db.
Proof.
  intros Hkey run.
  destruct (process_batch_work interrupt db) as (work & tail & Hp & Hrun & _).
  unfold run. rewrite Hrun.
  destruct (run_rows work db [] tail Hkey Hp) as [F S].
  destruct (run_prefix encode target_prob work db [] tail Hkey Hp)
    as (_ & _ & K3 & _).
  rewrite K3. cbn [app]. split; assumption.
Qed.


Lemma filter_all_false {B : Type} (q : B -> bool) (l : list B) :
  (forall x, In x l -> q x = false) -> filter q l = [].
Proof.
  induction l as [|x l IH]; cbn; intros H; [reflexivity|].
  rewrite (H x (or_introl eq_refl)). apply IH.
  intros y Hy. apply H. now right.
Qed.


Lemma order_by_length {B : Type} (leb : B -> B -> bool) (l : list B) :
  List.length (order_by leb l) = List.length l.
Proof. apply Permutation_length, order_by_perm. Qed.


Lemma Forall2_in_right {B : Type} (R : B -> B -> Prop) (l l' : list B)
  (y : B) :
  Forall2 R l l' -> In y l' -> exists x, In x l /\ R x y.
Proof.
  induction 1 as [|a b l l' Hab F IH]; cbn; [tauto|].
  intros [<-|Hin].
  - exists a. split; [now left|exact Hab].
  - destruct (IH Hin) as (x & Hx & Hr). exists x. split; [now right|exact Hr].
Qed.

(** X13.  A batch run never brings a NaN, a zero or a negative score into
    the store: if every score of a store with distinct ids is strictly
    positive, so is every score after the run, stopped or not. *)
Theorem run_keeps_scores_positive (interrupt : option nat) (db : database) :
  primary_key db -> scores_positive db ->
  scores_positive (fst (process_batch encode target_prob interrupt db)).
Proof.
  intros Hkey Hpos r' x Hin Hx.
  destruct (run_touches_rows interrupt db Hkey) as [F _].
  destruct (Forall2_in_right _ _ _ r' F Hin) as (r & Hr & _ & _ & _ & P).
  destruct (perplexity r) as [y|] eqn:E.
  - rewrite P in Hx. injection Hx as <-. exact (Hpos r y Hr E).
  - destruct P as [Pin Pout].
    destruct (in_dec Z.eq_dec (id r)
                (snd (process_batch encode target_prob interrupt db)))
      as [Hi|Hi].
    + rewrite (Pin Hi) in Hx. injection Hx as <-.
      apply calculate_perplexity_positive.
    + rewrite (Pout Hi) in Hx. discriminate.
Qed.

Lemma count_scored_after_update (sid : Z) (x : pyfloat)
  (rows : list sentence_row) (r0 : sentence_row) :
  NoDup (map id rows) -> In r0 rows -> id r0 = sid ->
  perplexity r0 = None ->
  List.length
    (filter (fun r => where_ (is_not_null (perplexity r)))
       (map (fun r => if (id r =? sid)%Z
                      then mk_row (id r) (text r) (Some x) (created_at r)
                      else r) rows))
  = S (List.length
         (filter (fun r => where_ (is_not_null (perplexity r))) rows)).
Proof.
  induction rows as [|a rows IH]; intros Hnd Hin Hid Hnull; [destruct Hin|].
  inversion Hnd as [|? ? Ha Hnd']; subst. cbn [map filter].
  destruct Hin as [->|Hin].
  - rewrite Z.eqb_refl. cbn [perplexity is_not_null where_].
    rewrite Hnull. cbn [is_not_null where_ List.length]. f_equal.
    rewrite update_absent; [reflexivity|].
    apply filter_all_false. intros r Hr. apply Z.eqb_neq. intros E.
    apply Ha. rewrite <- E. now apply in_map.
  - assert (E : (id a =? id r0)%Z = false).
    { apply Z.eqb_neq. intros E. apply Ha. rewrite E. now apply in_map. }
    rewrite E. destruct (where_ (is_not_null (perplexity a)));
      cbn [List.length]; now rewrite IH.
Qed.

(** X14.  Storing a score that is not NaN for a pending record of a store
    with distinct ids moves exactly one record from remaining to
    processed: the total stays, processed grows by one, remaining shrinks
    by one, and the record holds that score. *)
Theorem scoring_moves_one_record (db : database) (sid : Z) (p : pyfloat) :
  primary_key db ->
  In sid (map fst (get_pending_sentences db)) ->
  p <> NaN ->
  let before := Extractor.get_statistics db in
  let after := Extractor.get_statistics (fst (store_result sid p db)) in
  Extractor.total after = Extractor.total before
  /\ Extractor.processed after = (Extractor.processed before + 1)%Z
  /\ Extractor.remaining after = (Extractor.remaining before - 1)%Z
  /\ stored_score sid (fst (store_result sid p db)) = Some p.
Proof.
  intros Hkey Hin Hp before after.
  assert (Hrow : exists r0, In r0 (sentences db) /\ id r0 = sid
                            /\ perplexity r0 = None).
  { rewrite pending_ids in Hin. apply in_map_iff in Hin as (r0 & E & Hr0).
    apply (Permutation_in _ (order_by_perm _ _)) in Hr0.
    apply filter_In in Hr0 as [Hr0 Hnull]. exists r0.
    repeat split; try assumption.
    destruct (perplexity r0); [discriminate|reflexivity]. }
  destruct Hrow as (r0 & Hr0 & Hid & Hnull).
  assert (Hcount :
    Extractor.processed after = (Extractor.processed before + 1)%Z).
  { unfold after, before, Extractor.get_statistics, count_where.
    cbn [Extractor.processed]. rewrite store_result_rows.
    cbn [fst sentences]. rewrite (bind_float_not_nan p Hp).
    rewrite (count_scored_after_update sid p (sentences db) r0);
      try assumption. lia. }
  assert (Htotal : Extractor.total after = Extractor.total before).
  { unfold after, before, Extractor.get_statistics.
    cbn [Extractor.total]. rewrite store_result_rows. cbn [fst sentences].
    now rewrite length_map. }
  split; [exact Htotal|]. split; [exact Hcount|]. split.
  - change (Extractor.remaining after)
      with (Extractor.total after - Extractor.processed after)%Z.
    change (Extractor.remaining before)
      with (Extractor.total before - Extractor.processed before)%Z.
    lia.
  - rewrite stored_score_same; [now apply bind_float_not_nan|].
    rewrite <- Hid. now apply in_map.
Qed.




End RunFacts.

(* ------------------------------------------------------------------ *)
(** * Queries by score *)

Section QueryFacts.
Import Sqlite BatchProcessor Extractor TextSpec QuerySpec.

Lemma where_and (a b : option bool) :
  where_ (sql_and a b) = where_ a && where_ b.
Proof. destruct a as [[]|], b as [[]|]; reflexivity. Qed.

Lemma float_le_not_lt (a b : pyfloat) : float_le a b -> Py.lt b a = false.
Proof.
  destruct a as [x| | |], b as [y| | |]; cbn; try tauto.
  intros H. destruct (Rlt_dec y x); [lra|reflexivity].
Qed.

Lemma float_le_not_nan (a b : pyfloat) :
  float_le a b -> a <> NaN /\ b <> NaN.
Proof. destruct a, b; cbn; try tauto; split; discriminate. Qed.

Lemma where_ge_real (x l : pyfloat) :
  where_ (sql_ge (Some x) (SqlReal l)) = negb (Py.lt x l).
Proof.
  unfold sql_ge, compare_real_column. cbn. unfold real_compare.
  destruct (Py.lt x l); [reflexivity|]. now destruct (Py.lt l x).
Qed.

Lemma where_le_real (x h : pyfloat) :
  where_ (sql_le (Some x) (SqlReal h)) = negb (Py.lt h x).
Proof.
  unfold sql_le, compare_real_column. cbn. unfold real_compare.
  destruct (Py.lt x h) eqn:E; [now rewrite (lt_asym _ _ E)|].
  now destruct (Py.lt h x).
Qed.

(** [perplexity >= ?] with a bound float. *)
Lemma where_ge_bound (x l : pyfloat) :
  x <> NaN ->
  where_ (sql_ge (Some x) (column (bind_float l))) = true <-> float_le l x.
Proof.
  intros Hx. destruct (bind_float l) as [l'|] eqn:B.
  - assert (l' = l /\ l <> NaN) as [-> Hl]
      by (destruct l; inversion B; split; congruence).
    cbn [column]. rewrite where_ge_real, negb_true_iff. split.
    + now apply not_lt_float_le.
    + apply float_le_not_lt.
  - destruct l; try discriminate.
    destruct x; cbn; (split; [discriminate|tauto]).
Qed.

(** [perplexity <= ?] with a bound float. *)
Lemma where_le_bound (x h : pyfloat) :
  x <> NaN ->
  where_ (sql_le (Some x) (column (bind_float h))) = true <-> float_le x h.
Proof.
  intros Hx. destruct (bind_float h) as [h'|] eqn:B.
  - assert (h' = h /\ h <> NaN) as [-> Hh]
      by (destruct h; inversion B; split; congruence).
    cbn [column]. rewrite where_le_real, negb_true_iff. split.
    + now apply not_lt_float_le.
    + apply float_le_not_lt.
  - destruct h; try discriminate.
    destruct x; cbn; (split; [discriminate|tauto]).
Qed.

Local Abbreviation has_score :=
  (fun r : sentence_row =>
     match perplexity r with Some _ => true | None => false end).

Lemma range_condition (lo hi : option pyfloat) (r : sentence_row)
  (x : pyfloat) :
  perplexity r = Some x -> x <> NaN ->
  where_ (sql_and (sql_and (is_not_null (perplexity r))
                           (optional_bound sql_ge lo r))
                  (optional_bound sql_le hi r)) = true
  <-> above lo x /\ below hi x.
Proof.
  intros Hp Hx. rewrite !where_and, !andb_true_iff.
  unfold optional_bound, above, below. rewrite Hp. cbn [is_not_null where_].
  destruct lo as [l|], hi as [h|]; cbn [where_];
    rewrite ?where_ge_bound, ?where_le_bound by exact Hx; tauto.
Qed.

(** X16.  With no limit, the range query of a store without NaN returns
    exactly the scored records whose score lies between the bounds, both
    inclusive; an absent bound bounds nothing, and a NaN bound leaves no
    record. *)
Theorem range_query_exact (db : database) (lo hi : option pyfloat)
  (t : string) (p : option pyfloat) :
  nan_free db ->
  In (t, p) (get_sentences_by_perplexity None lo hi db)
  <-> exists r x,
        In r (sentences db) /\ text r = t /\ perplexity r = Some x
        /\ p = Some x /\ above lo x /\ below hi x.
Proof.
  intros Hnan. unfold get_sentences_by_perplexity. rewrite in_map_iff. split.
  - intros (r & E & Hin). injection E as <- <-.
    apply (Permutation_in _ (order_by_perm _ _)) in Hin.
    apply filter_In in Hin as [Hin Hc].
    destruct (perplexity r) as [x|] eqn:Hp.
    + assert (Hx : x <> NaN) by (intros ->; now apply (Hnan r Hin)).
      rewrite <- Hp in Hc.
      apply (range_condition lo hi r x Hp Hx) in Hc.
      exists r, x. tauto.
    + rewrite !where_and in Hc. cbn in Hc. discriminate.
  - intros (r & x & Hin & <- & Hp & -> & Hlo & Hhi).
    assert (Hx : x <> NaN) by (intros ->; now apply (Hnan r Hin)).
    exists r. split; [unfold text_perplexity; now rewrite Hp|].
    apply (Permutation_in _ (Permutation_sym (order_by_perm _ _))).
    apply filter_In. split; [exact Hin|].
    now apply (range_condition lo hi r x Hp Hx).
Qed.

Lemma StronglySorted_map {B C : Type} (R : C -> C -> Prop) (f : B -> C)
  (l : list B) :
  StronglySorted (fun a b => R (f a) (f b)) l -> StronglySorted R (map f l).
Proof.
  induction 1 as [|a l S IH Ha]; cbn; constructor; [exact IH|].
  apply Forall_map. exact Ha.
Qed.

Lemma unbounded_filter (rows : list sentence_row) :
  filter (fun r => where_
            (sql_and (sql_and (is_not_null (perplexity r))
                              (optional_bound sql_ge None r))
                     (optional_bound sql_le None r))) rows
  = filter has_score rows.
Proof. apply filter_ext. intros r. now destruct (perplexity r). Qed.

(** X17.  The listing by perplexity of a store without NaN holds each
    scored record once and no other, in descending order of score, an
    infinite score first; [get_top_perplexity_sentences n] is its first
    [n] entries, or all of it for a negative [n]; its length is the
    number of processed sentences of the statistics; and the sorted
    results of the batch processor are the same listing. *)
Theorem listing_by_perplexity (db : database) (n : Z) :
  nan_free db ->
  let full := get_sentences_by_perplexity None None None db in
  Permutation full (map text_perplexity (filter has_score (sentences db)))
  /\ StronglySorted (fun a b => score_ge (snd a) (snd b)) full
  /\ get_top_perplexity_sentences n db
     = (if (n <? 0)%Z then full else firstn (Z.to_nat n) full)
  /\ processed (get_statistics db) = Z.of_nat (List.length full)
  /\ get_results_sorted db = full.
Proof.
  intros Hnan full.
  assert (Efull : full = map text_perplexity
                    (order_by perplexity_desc
                       (filter has_score (sentences db)))).
  { unfold full, get_sentences_by_perplexity. now rewrite unbounded_filter. }
  split; [|split; [|split; [|split]]].
  - rewrite Efull. apply Permutation_map, order_by_perm.
  - rewrite Efull. apply StronglySorted_map.
    apply Sorted_StronglySorted.
    { intros a b c. unfold score_ge. cbn [text_perplexity snd].
      destruct (perplexity a), (perplexity b), (perplexity c); try tauto.
      intros H1 H2. exact (float_le_trans _ _ _ H2 H1). }
    apply (Sorted_impl_Forall (le_of perplexity_desc) _
             (fun r => exists x, perplexity r = Some x /\ x <> NaN)).
    + intros a b (x & Ha & Hx) (y & Hb & Hy).
      unfold le_of, perplexity_desc, score_ge. cbn [text_perplexity snd].
      rewrite Ha, Hb. cbn [order_leb]. rewrite negb_true_iff.
      now apply not_lt_float_le.
    + apply Forall_forall. intros r Hin.
      apply (Permutation_in _ (order_by_perm _ _)) in Hin.
      apply filter_In in Hin as [Hin Hs].
      destruct (perplexity r) as [x|] eqn:Hp; [|discriminate].
      exists x. split; [reflexivity|]. intros ->. now apply (Hnan r Hin).
    + apply order_by_sorted. intros a b. apply order_leb_total.
  - unfold get_top_perplexity_sentences, full, get_sentences_by_perplexity,
      limit. destruct (n <? 0)%Z; [reflexivity|]. now rewrite firstn_map.
  - rewrite Efull, length_map, order_by_length.
    unfold get_statistics, count_where. cbn [processed]. do 2 f_equal.
    apply filter_ext. intros r. now destruct (perplexity r).
  - rewrite Efull. unfold get_results_sorted.
    replace (filter (fun r => where_ (is_not_null (perplexity r)))
               (sentences db))
      with (filter has_score (sentences db)); [reflexivity|].
    apply filter_ext. intros r. now destruct (perplexity r).
Qed.

End QueryFacts.

(* ------------------------------------------------------------------ *)
(** * Keyword search *)

Section SearchFacts.
Import Sqlite BatchProcessor Extractor TextSpec QuerySpec.

Lemma chars_append (a b : string) :
  chars (a ++ b)%string = chars a ++ chars b.
Proof.
  unfold chars. induction a as [|c a IH]; [reflexivity|].
  cbn. now f_equal.
Qed.














End SearchFacts.

(* ------------------------------------------------------------------ *)
(** * Complexity scores *)

Section ComplexityFacts.
Import Sqlite BatchProcessor Extractor QuerySpec.

Lemma sign_positive (r : R) : (0 < r)%R -> sign r = Gt.
Proof. intros H. unfold sign. destruct (Rlt_dec 0 r); [reflexivity|lra]. Qed.

Lemma sign_zero : sign 0 = Eq.
Proof.
  unfold sign. destruct (Rlt_dec 0 0); [lra|]. destruct (Rlt_dec 0 0); [lra|].
  reflexivity.
Qed.


Lemma power_weight_zero (n : Z) : POWER n (Some (Fin 0)) = Some (Fin 1).
Proof.
  unfold POWER. destruct (n =? 0)%Z.
  - now rewrite sign_zero.
  - unfold Rpower. now rewrite Rmult_0_l, exp_0.
Qed.

Lemma weighted_score_zero (r : sentence_row) :
  perplexity r <> Some NaN ->
  weighted_score (Fin 0) r = perplexity r.
Proof.
  intros Hnan. unfold weighted_score. cbn [bind_float].
  rewrite power_weight_zero.
  destruct (perplexity r) as [[x| | |]|]; cbn [sql_mul mul bind_float];
    rewrite ?(sign_positive 1) by lra; try reflexivity; try congruence.
  now rewrite Rmult_1_r.
Qed.

(** X20.  With the weight 0 the length plays no part: in a store without
    NaN, every entry returned by [get_sentences_by_complexity] has its
    perplexity as complexity score and belongs to a scored record of at
    least the minimal length, and every record with a finite score and at
    least that length is returned when there is no limit. *)
Theorem weight_zero_is_perplexity (db : database) (limit_ : option Z)
  (min_length : Z) (t : string) (p c : option pyfloat) :
  nan_free db ->
  (In (t, p, c) (get_sentences_by_complexity limit_ min_length (Fin 0) db) ->
     c = p /\ p <> None
     /\ exists r, In r (sentences db) /\ text r = t /\ perplexity r = p
                  /\ (min_length <= LENGTH t)%Z)
  /\ (forall r x, In r (sentences db) -> perplexity r = Some (Fin x) ->
        (min_length <= LENGTH (text r))%Z ->
        In (text r, perplexity r, perplexity r)
           (get_sentences_by_complexity None min_length (Fin 0) db)).
Proof.
  intros Hnan. unfold get_sentences_by_complexity. split.
  - intros H. apply in_map_iff in H as (r & E & Hin). injection E as <- <- <-.
    assert (Hr : In r (filter (fun r => where_ (scored_not_inf r)
                                 && (min_length <=? LENGTH (text r))%Z)
                         (sentences db))).
    { apply (Permutation_in _ (order_by_perm
               (fun a b => order_leb (weighted_score (Fin 0) b)
                                     (weighted_score (Fin 0) a)) _)).
      destruct limit_ as [n|]; [|exact Hin].
      unfold limit in Hin. destruct (n <? 0)%Z; [exact Hin|].
      eapply firstn_In_sub. exact Hin. }
    apply filter_In in Hr as [Hr Hc]. apply andb_true_iff in Hc as [Hs Hl].
    rewrite scored_not_inf_scored in Hs. apply Z.leb_le in Hl.
    split; [apply weighted_score_zero, Hnan, Hr|].
    split; [destruct (perplexity r); [discriminate|discriminate Hs]|].
    now exists r.
  - intros r x Hin Hp Hl. apply in_map_iff. exists r. split.
    + now rewrite weighted_score_zero by now apply Hnan.
    + apply (Permutation_in _ (Permutation_sym (order_by_perm _ _))).
      apply filter_In. split; [exact Hin|]. apply andb_true_iff. split.
      * rewrite scored_not_inf_scored. now rewrite Hp.
      * now apply Z.leb_le.
Qed.

End ComplexityFacts.

(* ------------------------------------------------------------------ *)
(** * The delimited export *)

Section CsvFacts.
Import Sqlite BatchProcessor Extractor.

Variable float_str : pyfloat -> string.

Lemma escape_quotes_injective (s1 : string) :
  forall s2, escape_quotes s1 = escape_quotes s2 -> s1 = s2.
Proof.
  induction s1 as [|c1 s1 IH]; intros [|c2 s2]; cbn [escape_quotes].
  - reflexivity.
  - destruct (Ascii.eqb c2 quote_char); discriminate.
  - destruct (Ascii.eqb c1 quote_char); discriminate.
  - destruct (Ascii.eqb c1 quote_char) eqn:E1,
             (Ascii.eqb c2 quote_char) eqn:E2; intros H.
    + apply Ascii.eqb_eq in E1, E2. subst.
      injection H as H. f_equal. now apply IH.
    + injection H as H _. rewrite <- H, Ascii.eqb_refl in E2. discriminate.
    + injection H as H _. rewrite H, Ascii.eqb_refl in E1. discriminate.
    + injection H as -> H. f_equal. now apply IH.
Qed.

Lemma string_append_cancel_right (a b tail : string) :
  (a ++ tail)%string = (b ++ tail)%string -> a = b.
Proof.
  intros H. apply (f_equal list_ascii_of_string) in H.
  rewrite !(chars_append) in H. apply app_inv_tail in H.
  rewrite <- (string_of_list_ascii_of_string a),
          <- (string_of_list_ascii_of_string b).
  now f_equal.
Qed.

(** X21.  Doubling the quotes loses nothing: two sentences with the same
    escaped form are the same sentence, and two scored sentences with the
    same score that give the same line of the delimited export are the
    same sentence. *)
Theorem csv_line_keeps_sentence (s1 s2 : string) (p : option pyfloat) :
  (escape_quotes s1 = escape_quotes s2 -> s1 = s2)
  /\ (csv_line float_str (s1, p) = csv_line float_str (s2, p) -> s1 = s2).
Proof.
  split; [apply escape_quotes_injective|].
  unfold csv_line. intros H. cbn in H. injection H as H.
  apply escape_quotes_injective.
  now apply (string_append_cancel_right _ _ _ H).
Qed.

End CsvFacts.

(* ------------------------------------------------------------------ *)
(** * More instances *)

Section MoreInstances.
Import Sqlite BatchProcessor StoreSpec QuerySpec TextSpec Samples.

Lemma store_A5_Binf_C_primary_key : primary_key store_A5_Binf_C.
Proof.
  unfold primary_key. cbn.
  repeat constructor; cbn; intuition discriminate.
Qed.

Lemma store_A5_Binf_C_nan_free : nan_free store_A5_Binf_C.
Proof.
  intros r [<-|[<-|[<-|[]]]]; discriminate.
Qed.

Lemma store_A5_Binf_C_positive : scores_positive store_A5_Binf_C.
Proof.
  intros r x [<-|[<-|[<-|[]]]]; cbn; intros [= <-].
  - right. exists 5%R. split; [reflexivity|lra].
  - now left.
Qed.

Lemma store_pending_ascending : ascending_ids store_pending.
Proof.
  unfold ascending_ids. cbn. repeat constructor; lia.
Qed.

Lemma store_hello_nan_free : nan_free store_hello.
Proof. intros r [<-|[]]; discriminate. Qed.


Lemma no_end_has_no_ending : no_ending "no end".
Proof. unfold no_ending. cbn. repeat constructor. Qed.



End MoreInstances.


(** The text "no end". *)
Lemma split_without_endings_witness :
  PhraseSorter.split_into_sentences "no end"
  = if String.eqb (strip "no end") "" then [] else [strip "no end"].
Proof.
  exact (split_without_endings "no end" no_end_has_no_ending).
Defined.

(** Storing a new sentence in the sample store. *)
Lemma store_sentences_keeps_constraints_witness :
  BatchProcessor.primary_key
    (fst (BatchProcessor.store_sentences 10 ["Four sentences"%string]
            Samples.store_pending))
  /\ BatchProcessor.unique_text
    (fst (BatchProcessor.store_sentences 10 ["Four sentences"%string]
            Samples.store_pending)).
Proof.
  exact (store_sentences_keeps_constraints 10 ["Four sentences"%string]
           Samples.store_pending store_pending_primary_key
           store_pending_unique_text).
Defined.

(** Storing a new and a known sentence in the sample store. *)
Lemma stored_sentences_occur_once_witness :
  StoreSpec.count_text "One sentence"
    (fst (BatchProcessor.store_sentences 10
            ["Four sentences"%string; "One sentence"%string]
            Samples.store_pending)) = 1%nat.
Proof.
  apply (stored_sentences_occur_once 10
           ["Four sentences"%string; "One sentence"%string]
           Samples.store_pending "One sentence").
  - exact store_pending_unique_text.
  - cbn. right. left. reflexivity.
Defined.

(** The sample store, whose ids are 1, 2, 3. *)
Lemma pending_in_insertion_order_witness :
  StoreSpec.ascending_ids
    (fst (BatchProcessor.store_sentences 10 ["Four sentences"%string]
            Samples.store_pending))
  /\ StoreSpec.ascending_ids
       (fst (BatchProcessor.store_result 2 (Fin 5) Samples.store_pending))
  /\ BatchProcessor.get_pending_sentences Samples.store_pending
     = map (fun r => (BatchProcessor.id r, BatchProcessor.text r))
         (filter (fun r => match BatchProcessor.perplexity r with
                           | None => true
                           | Some _ => false
                           end)
            (BatchProcessor.sentences Samples.store_pending)).
Proof.
  exact (pending_in_insertion_order 10 ["Four sentences"%string] 2 (Fin 5)
           Samples.store_pending store_pending_ascending).
Defined.

(** A run over the sample store stopped after two records. *)
Lemma run_touches_only_pending_scores_witness :
  Forall2
    (StoreSpec.scored_by
       (BatchProcessor.calculate_perplexity Samples.three_tokens
          Samples.one_half)
       (snd (BatchProcessor.process_batch Samples.three_tokens
               Samples.one_half (Some 2%nat) Samples.store_pending)))
    (BatchProcessor.sentences Samples.store_pending)
    (BatchProcessor.sentences
       (fst (BatchProcessor.process_batch Samples.three_tokens
               Samples.one_half (Some 2%nat) Samples.store_pending)))
  /\ BatchProcessor.sequence
       (fst (BatchProcessor.process_batch Samples.three_tokens
               Samples.one_half (Some 2%nat) Samples.store_pending))
     = BatchProcessor.sequence Samples.store_pending.
Proof.
  exact (run_touches_only_pending_scores Samples.three_tokens
           Samples.one_half (Some 2%nat) Samples.store_pending
           store_pending_primary_key).
Defined.


(** A run over the store A: 5.0, B: infinite, C: not scored. *)
Lemma run_keeps_scores_positive_witness :
  StoreSpec.scores_positive
    (fst (BatchProcessor.process_batch Samples.three_tokens Samples.one_half
            None Samples.store_A5_Binf_C)).
Proof.
  exact (run_keeps_scores_positive Samples.three_tokens Samples.one_half
           None Samples.store_A5_Binf_C store_A5_Binf_C_primary_key
           store_A5_Binf_C_positive).
Defined.

(** Scoring record 2 of the sample store with 5.0. *)
Lemma scoring_moves_one_record_witness :
  Extractor.total (Extractor.get_statistics
    (fst (BatchProcessor.store_result 2 (Fin 5) Samples.store_pending)))
  = Extractor.total (Extractor.get_statistics Samples.store_pending)
  /\ Extractor.processed (Extractor.get_statistics
       (fst (BatchProcessor.store_result 2 (Fin 5) Samples.store_pending)))
     = (Extractor.processed (Extractor.get_statistics Samples.store_pending)
        + 1)%Z
  /\ Extractor.remaining (Extractor.get_statistics
       (fst (BatchProcessor.store_result 2 (Fin 5) Samples.store_pending)))
     = (Extractor.remaining (Extractor.get_statistics Samples.store_pending)
        - 1)%Z
  /\ StoreSpec.stored_score 2
       (fst (BatchProcessor.store_result 2 (Fin 5) Samples.store_pending))
     = Some (Fin 5).
Proof.
  apply (scoring_moves_one_record Samples.store_pending 2 (Fin 5)).
  - exact store_pending_primary_key.
  - cbn. right. left. reflexivity.
  - discriminate.
Defined.


(** The scores from 1.0 on in the store A: 5.0, B: infinite, C: not
    scored. *)
Lemma range_query_exact_witness :
  In ("A"%string, Some (Fin 5))
     (Extractor.get_sentences_by_perplexity None (Some (Fin 1)) None
        Samples.store_A5_Binf_C)
  <-> exists r x,
        In r (BatchProcessor.sentences Samples.store_A5_Binf_C)
        /\ BatchProcessor.text r = "A"%string
        /\ BatchProcessor.perplexity r = Some x
        /\ Some (Fin 5) = Some x
        /\ QuerySpec.above (Some (Fin 1)) x /\ QuerySpec.below None x.
Proof.
  exact (range_query_exact Samples.store_A5_Binf_C (Some (Fin 1)) None
           "A" (Some (Fin 5)) store_A5_Binf_C_nan_free).
Defined.

(** The listing of the store A: 5.0, B: infinite, C: not scored. *)
Lemma listing_by_perplexity_witness :
  Permutation
    (Extractor.get_sentences_by_perplexity None None None
       Samples.store_A5_Binf_C)
    (map Extractor.text_perplexity
       (filter (fun r => match BatchProcessor.perplexity r with
                         | Some _ => true
                         | None => false
                         end)
          (BatchProcessor.sentences Samples.store_A5_Binf_C)))
  /\ StronglySorted (fun a b => QuerySpec.score_ge (snd a) (snd b))
       (Extractor.get_sentences_by_perplexity None None None
          Samples.store_A5_Binf_C)
  /\ Extractor.get_top_perplexity_sentences 1 Samples.store_A5_Binf_C
     = (if (1 <? 0)%Z
        then Extractor.get_sentences_by_perplexity None None None
               Samples.store_A5_Binf_C
        else firstn (Z.to_nat 1)
               (Extractor.get_sentences_by_perplexity None None None
                  Samples.store_A5_Binf_C))
  /\ Extractor.processed (Extractor.get_statistics Samples.store_A5_Binf_C)
     = Z.of_nat (List.length
         (Extractor.get_sentences_by_perplexity None None None
            Samples.store_A5_Binf_C))
  /\ BatchProcessor.get_results_sorted Samples.store_A5_Binf_C
     = Extractor.get_sentences_by_perplexity None None None
         Samples.store_A5_Binf_C.
Proof.
  exact (listing_by_perplexity Samples.store_A5_Binf_C 1
           store_A5_Binf_C_nan_free).
Defined.



(** The store A: 5.0, B: infinite, C: not scored, with weight 0. *)
Lemma weight_zero_is_perplexity_witness :
  (In ("A"%string, Some (Fin 5), Some (Fin 5))
      (Extractor.get_sentences_by_complexity None 1 (Fin 0)
         Samples.store_A5_Binf_C) ->
     Some (Fin 5) = Some (Fin 5) /\ Some (Fin 5) <> None
     /\ exists r,
          In r (BatchProcessor.sentences Samples.store_A5_Binf_C)
          /\ BatchProcessor.text r = "A"%string
          /\ BatchProcessor.perplexity r = Some (Fin 5)
          /\ (1 <= Sqlite.LENGTH "A")%Z)
  /\ (forall r x,
        In r (BatchProcessor.sentences Samples.store_A5_Binf_C) ->
        BatchProcessor.perplexity r = Some (Fin x) ->
        (1 <= Sqlite.LENGTH (BatchProcessor.text r))%Z ->
        In (BatchProcessor.text r, BatchProcessor.perplexity r,
            BatchProcessor.perplexity r)
           (Extractor.get_sentences_by_complexity None 1 (Fin 0)
              Samples.store_A5_Binf_C)).
Proof.
  exact (weight_zero_is_perplexity Samples.store_A5_Binf_C None 1 "A"
           (Some (Fin 5)) (Some (Fin 5)) store_A5_Binf_C_nan_free).
Defined.
